(** * megabotdown: the MEGA download proxy of [src/server.js]

    A shallow embedding of the pure parts of the server (the link validator,
    the range parser, the error mapping of the [/dl] handler) and of the
    [/dl] handler itself as a function from a request and the provider's
    answer to the response object it builds.

    Conventions.
    - JavaScript strings are [string]: for a request header every character
      is one Latin-1 code unit, which is what Node hands to the handler.
    - JavaScript numbers that the code uses as integers (sizes, offsets) are
      [Z]; [NaN], which [parseInt] and [Number] can return, is a separate
      constructor of [number].  The embedding is exact as long as the file
      size is below 2^53, where double arithmetic on integers is exact.
    - [undefined] is [None]. *)

From Stdlib Require Import ZArith String Ascii List Lia Bool.
From stdpp Require Import base gmap strings.

Local Open Scope string_scope.
Local Open Scope Z_scope.

(** ** The platform's string functions used by the server *)

Module Js.

(** Truthiness of a string: every string but the empty one. *)
Definition truthy (s : string) : bool :=
  match s with
  | EmptyString => false
  | String _ _ => true
  end.

(** [s.startsWith(p)] *)
Fixpoint startsWith (s p : string) {struct p} : bool :=
  match p, s with
  | EmptyString, _ => true
  | String _ _, EmptyString => false
  | String a p', String b s' => if Ascii.eqb a b then startsWith s' p' else false
  end.

(** [s.includes(p)] *)
Fixpoint includes (s p : string) : bool :=
  startsWith s p ||
  match s with
  | EmptyString => false
  | String _ s' => includes s' p
  end.

(** The characters of [s] after the first [n]. *)
Fixpoint drop (n : nat) (s : string) : string :=
  match n, s with
  | O, _ => s
  | S _, EmptyString => EmptyString
  | S n', String _ s' => drop n' s'
  end.

(** [s.replace(pat, rep)] with a string pattern: the first occurrence of
    [pat] only.  ([rep] is taken literally; the server's [rep] is empty.) *)
Fixpoint replace (pat rep s : string) : string :=
  if startsWith s pat then rep ++ drop (String.length pat) s
  else match s with
       | EmptyString => EmptyString
       | String c s' => String c (replace pat rep s')
       end.

(** [s.split(sep)] for a separator of one character. *)
Fixpoint split (sep : ascii) (s : string) : list string :=
  match s with
  | EmptyString => [EmptyString]
  | String c s' =>
      if Ascii.eqb c sep then EmptyString :: split sep s'
      else match split sep s' with
           | [] => [String c EmptyString]
           | p :: ps => String c p :: ps
           end
  end.

(** [a.includes(x)] on an array of strings. *)
Definition arrayIncludes (a : list string) (x : string) : bool :=
  existsb (String.eqb x) a.

(** Numbers: an integer or [NaN]. *)
Inductive number : Type :=
  | NaN : number
  | Int : Z -> number.

(** The code unit of a character. *)
Definition charCode (c : ascii) : Z := Z.of_N (N_of_ascii c).

(** White space that [parseInt] skips, among the Latin-1 characters:
    TAB, LF, VT, FF, CR, SP and NBSP. *)
Definition isWhiteSpace (c : ascii) : bool :=
  let n := charCode c in
  ((9 <=? n) && (n <=? 13)) || (n =? 32) || (n =? 160).

Fixpoint trimStart (s : string) : string :=
  match s with
  | EmptyString => EmptyString
  | String c s' => if isWhiteSpace c then trimStart s' else s
  end.

Definition digitVal (c : ascii) : option Z :=
  let n := charCode c in
  if (48 <=? n) && (n <=? 57) then Some (n - 48) else None.

(** The value of the longest prefix of decimal digits of [s], read from the
    left with [acc] as the value of the digits already read. *)
Fixpoint parseDigits (acc : Z) (s : string) : Z :=
  match s with
  | EmptyString => acc
  | String c s' =>
      match digitVal c with
      | Some d => parseDigits (acc * 10 + d) s'
      | None => acc
      end
  end.

(** [parseInt(s, 10)]: skip leading white space, read an optional sign, then
    the longest prefix of digits; [NaN] when there is no digit. *)
Definition parseInt (s : string) : number :=
  let s1 := trimStart s in
  let '(sign, s2) :=
    match s1 with
    | String "-" r => (-1, r)
    | String "+" r => (1, r)
    | _ => (1, s1)
    end in
  match s2 with
  | EmptyString => NaN
  | String c _ =>
      match digitVal c with
      | Some _ => Int (sign * parseDigits 0 s2)
      | None => NaN
      end
  end.

Definition digitChar (d : Z) : ascii := ascii_of_N (Z.to_N (48 + d)).

(** The decimal digits of [n >= 0] put in front of [acc]; [fuel] bounds the
    number of digits after the first. *)
Fixpoint digitsOf (fuel : nat) (n : Z) (acc : string) : string :=
  let acc' := String (digitChar (n mod 10)) acc in
  match fuel with
  | O => acc'
  | S fuel' => if n <? 10 then acc' else digitsOf fuel' (n / 10) acc'
  end.

(** [String(n)], also what a template literal does with a number, for an
    integer [n] (below 1e21 in absolute value, where JavaScript prints all
    the digits). *)
Definition toString (n : Z) : string :=
  if n <? 0 then String "-" (digitsOf (Z.to_nat (Z.log2 (- n))) (- n) EmptyString)
  else digitsOf (Z.to_nat (Z.log2 n)) n EmptyString.

Definition hexDigit (d : N) : ascii :=
  if (d <? 10)%N then ascii_of_N (48 + d) else ascii_of_N (55 + d).

(** Characters that [encodeURIComponent] leaves alone:
    letters, digits and [- _ . ! ~ * ' ( )]. *)
Definition isUnreserved (c : ascii) : bool :=
  let n := charCode c in
  ((48 <=? n) && (n <=? 57)) || ((65 <=? n) && (n <=? 90)) || ((97 <=? n) && (n <=? 122))
  || existsb (Z.eqb n) [45; 95; 46; 33; 126; 42; 39; 40; 41].

(** [encodeURIComponent(s)] on the UTF-8 bytes of [s]. *)
Fixpoint encodeURIComponent (s : string) : string :=
  match s with
  | EmptyString => EmptyString
  | String c s' =>
      if isUnreserved c then String c (encodeURIComponent s')
      else let n := N_of_ascii c in
           String "%" (String (hexDigit (n / 16)) (String (hexDigit (n mod 16))
             (encodeURIComponent s')))
  end.

End Js.

Import Js.

(** ** The range parser *)

Record ByteRange := { start : Z; end_ : Z }.

(** [parseRange(rangeHeader, size)]; [None] is the code's [null]. *)
Definition parseRange (rangeHeader : option string) (size : Z) : option ByteRange :=
  match rangeHeader with
  | None => None
  | Some h =>
      if negb (truthy h) || negb (startsWith h "bytes=") then None
      else
        let parts := split "-" (replace "bytes=" "" h) in
        let startStr := parts !! 0%nat in
        let endStr := parts !! 1%nat in
        let start0 :=
          match startStr with
          | Some s => if truthy s then parseInt s else Int 0
          | None => Int 0
          end in
        let end0 :=
          match endStr with
          | Some s => if truthy s then parseInt s else Int (size - 1)
          | None => Int (size - 1)
          end in
        let start1 := match start0 with NaN => 0 | Int z => z end in
        let end1 :=
          match end0 with
          | NaN => size - 1
          | Int z => if z >=? size then size - 1 else z
          end in
        if (start1 >? end1) || (start1 <? 0) then None
        else Some {| start := start1; end_ := end1 |}
  end.

(** ** The link validator *)

(** The three fields of a parsed [URL] that the validator reads. *)
Record URL := { hostname : string; pathname : string; hash : string }.

Definition allowedHosts : list string :=
  ["mega.nz"; "www.mega.nz"; "mega.co.nz"; "www.mega.co.nz"].

Section Validator.

(** [new URL(str)] is the platform's parser, not code of the server:
    [None] when the constructor throws. *)
Variable newURL : string -> option URL.

(** The validator of the current server. *)
Definition isAllowedMegaLink (str : string) : bool :=
  match newURL str with
  | Some u =>
      let isValidHost := arrayIncludes allowedHosts (hostname u) in
      let isFileLink :=
        startsWith (pathname u) "/file/"
        || (String.eqb (pathname u) "/" && startsWith (hash u) "#!")
        || startsWith (pathname u) "/#!" in
      isValidHost && isFileLink
  | None => false
  end.

(** The validator of the earlier server kept in the same file. *)
Definition isAllowedMegaLink_legacy (str : string) : bool :=
  match newURL str with
  | Some u =>
      arrayIncludes allowedHosts (hostname u)
      && (startsWith (pathname u) "/file/"
          || startsWith (pathname u) "/#!"
          || Bool.eqb (startsWith (pathname u) "/f/") false)
  | None => false
  end.

End Validator.

(** ** The response object and the error mapping *)

(** What ends a response: [res.send(text)], or a provider stream piped into
    it, [file.download(range).pipe(res)], with the range the stream was
    opened with ([None] for [file.download()]). *)
Inductive Body : Type :=
  | Sent (text : string)
  | Piped (range : option ByteRange).

Record Res := {
  statusCode : Z;
  resHeaders : gmap string string;
  body : option Body
}.

Definition res0 : Res :=
  {| statusCode := 200; resHeaders := ∅; body := None |}.

Definition status (c : Z) (res : Res) : Res :=
  {| statusCode := c; resHeaders := resHeaders res; body := body res |}.

Definition setHeader (name value : string) (res : Res) : Res :=
  {| statusCode := statusCode res;
     resHeaders := <[name := value]> (resHeaders res);
     body := body res |}.

Definition send (text : string) (res : Res) : Res :=
  {| statusCode := statusCode res; resHeaders := resHeaders res;
     body := Some (Sent text) |}.

Definition pipe (range : option ByteRange) (res : Res) : Res :=
  {| statusCode := statusCode res; resHeaders := resHeaders res;
     body := Some (Piped range) |}.

Notation "res |> f" := (f res) (at level 45, left associativity, only parsing).

(** What the [catch] branch reads of the caught value: [err.message] and
    [err.code], each possibly missing. *)
Record Error := { message : option string; code : option Z }.

(** [err.message?.includes(x)] *)
Definition messageIncludes (err : Error) (x : string) : bool :=
  match message err with
  | Some m => includes m x
  | None => false
  end.

(** [err.code === c] *)
Definition codeIs (err : Error) (c : Z) : bool :=
  match code err with
  | Some k => k =? c
  | None => false
  end.

(** [err.message || 'Unknown error'] *)
Definition messageOr (err : Error) (dflt : string) : string :=
  match message err with
  | Some m => if truthy m then m else dflt
  | None => dflt
  end.

(** The [catch] branch of the [/dl] handler. *)
Definition mapError (err : Error) (res : Res) : Res :=
  if messageIncludes err "ENOENT" || codeIs err (-9) then
    res |> status 404
        |> send "File not found. The MEGA link may be invalid or the file was deleted."
  else if messageIncludes err "EACCESS" || codeIs err (-11) then
    res |> status 403
        |> send "Access denied. The file may be private or the link is incorrect."
  else if messageIncludes err "EEXPIRED" || codeIs err (-8) then
    res |> status 410 |> send "The MEGA link has expired. Please get a fresh link."
  else if messageIncludes err "EOVERQUOTA" || codeIs err (-17) then
    res |> status 429 |> send "MEGA quota exceeded. Please try again later."
  else if messageIncludes err "EKEY" || messageIncludes err "decryption" then
    res |> status 400 |> send "Invalid encryption key in the MEGA link."
  else if messageIncludes err "ETEMPUNAVAIL" || codeIs err (-18) then
    res |> status 503
        |> send "MEGA service temporarily unavailable. Please try again later."
  else
    res |> status 500
        |> send ("Failed to fetch from MEGA: " ++ messageOr err "Unknown error").

(** ** The [/dl] handler *)

(** [req.query] and [req.headers] *)
Record Request := { query : gmap string string; headers : gmap string string }.

(** A value that [file.size] can hold. *)
Inductive SizeField : Type :=
  | SizeUndefined
  | SizeNull
  | SizeNumber (n : number)
  | SizeString (s : string).

(** What [file.loadAttributes()] leaves in the file object. *)
Record FileAttributes := { name : option string; size : SizeField }.

Inductive Result (A : Type) : Type :=
  | Ok (a : A)
  | Throw (err : Error).
Arguments Ok {A} a.
Arguments Throw {A} err.

Section Handler.

Variable newURL : string -> option URL.

(** [Number(s)] on a string is the platform's. *)
Variable stringToNumber : string -> number.

(** The provider: [File.fromURL(link)] and then [file.loadAttributes()],
    which answers with the attributes or throws. *)
Variable loadAttributes : string -> Result FileAttributes.

(** [Number(v)] *)
Definition Number (v : SizeField) : number :=
  match v with
  | SizeUndefined => NaN
  | SizeNull => Int 0
  | SizeNumber n => n
  | SizeString s => stringToNumber s
  end.

(** The part of the [try] block after the metadata is loaded. *)
Definition respond (req : Request) (file : FileAttributes) (res : Res) : Res :=
  let fileName :=
    match name file with
    | Some n => if truthy n then n else "download.bin"
    | None => "download.bin"
    end in
  match Number (size file) with
  | NaN => res |> status 400 |> send "File appears to be empty or invalid."
  | Int fileSize =>
      if fileSize =? 0 then
        res |> status 400 |> send "File appears to be empty or invalid."
      else
        let res :=
          res |> setHeader "Content-Disposition"
                   ("attachment; filename*=UTF-8''" ++ encodeURIComponent fileName)
              |> setHeader "Accept-Ranges" "bytes"
              |> setHeader "Cache-Control" "no-store" in
        match parseRange (headers req !! "range") fileSize with
        | Some range =>
            let chunkSize := end_ range - start range + 1 in
            res |> status 206
                |> setHeader "Content-Type" "application/octet-stream"
                |> setHeader "Content-Range"
                     ("bytes " ++ toString (start range) ++ "-"
                      ++ toString (end_ range) ++ "/" ++ toString fileSize)
                |> setHeader "Content-Length" (toString chunkSize)
                |> pipe (Some range)
        | None =>
            res |> status 200
                |> setHeader "Content-Length" (toString fileSize)
                |> setHeader "Content-Type" "application/octet-stream"
                |> pipe None
        end
  end.

(** [app.get("/dl", ...)] *)
Definition dl (req : Request) : Res :=
  match query req !! "link" with
  | None => res0 |> status 400 |> send "Missing ?link=<MEGA_PUBLIC_FILE_URL>"
  | Some megaLink =>
      if negb (truthy megaLink) then
        res0 |> status 400 |> send "Missing ?link=<MEGA_PUBLIC_FILE_URL>"
      else if negb (isAllowedMegaLink newURL megaLink) then
        res0 |> status 400 |> send "Only public MEGA FILE links are supported."
      else
        match loadAttributes megaLink with
        | Ok file => respond req file res0
        | Throw err => mapError err res0
        end
  end.

End Handler.

(** ** Definitions used to state the properties *)

(** [s] has no ["-"] in it. *)
Fixpoint noDash (s : string) : bool :=
  match s with
  | EmptyString => true
  | String c s' => negb (Ascii.eqb c "-") && noDash s'
  end.

(** Every character of [s] is a decimal digit. *)
Fixpoint allDigits (s : string) : bool :=
  match s with
  | EmptyString => true
  | String c s' => match digitVal c with Some _ => allDigits s' | None => false end
  end.

(** The start of the window for the text [s] left of the dash: its number,
    and 0 when [s] is empty or not a number. *)
Definition defaultStart (s : string) : Z :=
  match parseInt s with
  | Int z => z
  | NaN => 0
  end.

(** The end of the window for the text [e] right of the dash: its number
    when that is below [size], and [size - 1] when [e] is empty, not a number
    or out of bounds. *)
Definition clampEnd (e : string) (size : Z) : Z :=
  match parseInt e with
  | Int z => if z <? size then z else size - 1
  | NaN => size - 1
  end.

(** The conditions of the error table of the specification, in its order. *)
Inductive Condition : Type :=
  | NotFound | AccessDenied | Expired | QuotaExceeded | BadKey | TempUnavailable.

(** The signals of a condition: the texts looked for in the message and the
    structured code, when it has one. *)
Definition signals (c : Condition) : list string * option Z :=
  match c with
  | NotFound => (["ENOENT"], Some (-9))
  | AccessDenied => (["EACCESS"], Some (-11))
  | Expired => (["EEXPIRED"], Some (-8))
  | QuotaExceeded => (["EOVERQUOTA"], Some (-17))
  | BadKey => (["EKEY"; "decryption"], None)
  | TempUnavailable => (["ETEMPUNAVAIL"], Some (-18))
  end.

(** A condition matches through either channel. *)
Definition matches (err : Error) (c : Condition) : bool :=
  existsb (messageIncludes err) (fst (signals c))
  || match snd (signals c) with
     | Some k => codeIs err k
     | None => false
     end.

Definition errorTable : list (Condition * Z) :=
  [(NotFound, 404); (AccessDenied, 403); (Expired, 410);
   (QuotaExceeded, 429); (BadKey, 400); (TempUnavailable, 503)].

(** The status the table gives: that of the first row that matches, and 500
    when none does. *)
Definition tableStatus (err : Error) : Z :=
  match List.find (fun row => matches err (fst row)) errorTable with
  | Some row => snd row
  | None => 500
  end.

(** The response that serves the whole file of [fileSize] bytes. *)
Definition isFullResponse (res : Res) (fileSize : Z) : Prop :=
  statusCode res = 200
  /\ resHeaders res !! "Content-Type" = Some "application/octet-stream"
  /\ resHeaders res !! "Content-Length" = Some (toString fileSize)
  /\ body res = Some (Piped None).

(** *** Sample data *)

(** What the platform's [new URL] answers on the links of the examples.
    The table ends in [None]; the examples apply it to the links listed, to
    the empty string and to a string that is not a URL, on which the
    constructor throws. *)
Definition sampleURL (str : string) : option URL :=
  if String.eqb str "https://mega.nz/file/XXXX" then
    Some {| hostname := "mega.nz"; pathname := "/file/XXXX"; hash := "" |}
  else if String.eqb str "https://mega.nz/folder/XXXX" then
    Some {| hostname := "mega.nz"; pathname := "/folder/XXXX"; hash := "" |}
  else if String.eqb str "https://mega.nz/#!XXXX!KEY" then
    Some {| hostname := "mega.nz"; pathname := "/"; hash := "#!XXXX!KEY" |}
  else if String.eqb str "https://mega.nz/" then
    Some {| hostname := "mega.nz"; pathname := "/"; hash := "" |}
  else if String.eqb str "https://example.com/file/XXXX" then
    Some {| hostname := "example.com"; pathname := "/file/XXXX"; hash := "" |}
  else None.

Definition sampleLink : string := "https://mega.nz/file/XXXX".

(** A provider that resolves every link to a file [a.bin] of [n] bytes. *)
Definition sampleProvider (n : SizeField) (link : string) : Result FileAttributes :=
  Ok {| name := Some "a.bin"; size := n |}.

(** No string is numeric: enough for the samples, which hold no string. *)
Definition sampleStringToNumber (s : string) : number := NaN.

Definition sampleRequest (range : option string) : Request :=
  {| query := {[ "link" := sampleLink ]};
     headers := match range with
                | Some h => {[ "range" := h ]}
                | None => ∅
                end |}.

(** ** The earlier server kept in the same file *)

(** The second half of [src/server.js] holds the earlier server.  Its
    [parseRange] is the same text, but its handler calls it with
    [Number(file.size)] unchecked, which can be [NaN]; so here the function
    is read on numbers, with JavaScript's arithmetic and comparisons. *)

Module JsNumber.

Definition isNaN (a : number) : bool :=
  match a with
  | NaN => true
  | Int _ => false
  end.

(** [Number.isFinite(a)]; [number] has no infinity. *)
Definition isFinite (a : number) : bool := negb (isNaN a).

(** [a - b] and [a + b]: [NaN] when an operand is. *)
Definition sub (a b : number) : number :=
  match a, b with
  | Int x, Int y => Int (x - y)
  | _, _ => NaN
  end.

Definition add (a b : number) : number :=
  match a, b with
  | Int x, Int y => Int (x + y)
  | _, _ => NaN
  end.

(** [a >= b], [a > b] and [a < b]: false when an operand is [NaN]. *)
Definition ge (a b : number) : bool :=
  match a, b with
  | Int x, Int y => x >=? y
  | _, _ => false
  end.

Definition gt (a b : number) : bool :=
  match a, b with
  | Int x, Int y => x >? y
  | _, _ => false
  end.

Definition lt (a b : number) : bool :=
  match a, b with
  | Int x, Int y => x <? y
  | _, _ => false
  end.

(** [String(a)], and a number in a template literal. *)
Definition toString (a : number) : string :=
  match a with
  | NaN => "NaN"
  | Int z => Js.toString z
  end.

End JsNumber.

(** The object [{ start, end }] that [parseRange] returns, as numbers. *)
Record NumRange := { nstart : number; nend : number }.

(** [parseRange(rangeHeader, size)] of lines 188-197 for any number [size]. *)
Definition parseRangeNum (rangeHeader : option string) (size : number)
  : option NumRange :=
  match rangeHeader with
  | None => None
  | Some h =>
      if negb (truthy h) || negb (startsWith h "bytes=") then None
      else
        let parts := split "-" (replace "bytes=" "" h) in
        let startStr := parts !! 0%nat in
        let endStr := parts !! 1%nat in
        let start0 :=
          match startStr with
          | Some s => if truthy s then parseInt s else Int 0
          | None => Int 0
          end in
        let end0 :=
          match endStr with
          | Some s => if truthy s then parseInt s else JsNumber.sub size (Int 1)
          | None => JsNumber.sub size (Int 1)
          end in
        let start1 := if JsNumber.isNaN start0 then Int 0 else start0 in
        let end1 :=
          if JsNumber.isNaN end0 || JsNumber.ge end0 size
          then JsNumber.sub size (Int 1) else end0 in
        if JsNumber.gt start1 end1 || JsNumber.lt start1 (Int 0) then None
        else Some {| nstart := start1; nend := end1 |}
  end.

(** The response object of the earlier handler: as [Res], with the window
    of the provider stream in numbers. *)
Inductive LegacyBody : Type :=
  | LegacySent (text : string)
  | LegacyPiped (range : option NumRange).

Record LegacyRes := {
  legacyStatusCode : Z;
  legacyHeaders : gmap string string;
  legacyBody : option LegacyBody
}.

Definition legacyRes0 : LegacyRes :=
  {| legacyStatusCode := 200; legacyHeaders := ∅; legacyBody := None |}.

Definition legacyStatus (c : Z) (res : LegacyRes) : LegacyRes :=
  {| legacyStatusCode := c; legacyHeaders := legacyHeaders res;
     legacyBody := legacyBody res |}.

Definition legacySetHeader (name value : string) (res : LegacyRes) : LegacyRes :=
  {| legacyStatusCode := legacyStatusCode res;
     legacyHeaders := <[name := value]> (legacyHeaders res);
     legacyBody := legacyBody res |}.

Definition legacySend (text : string) (res : LegacyRes) : LegacyRes :=
  {| legacyStatusCode := legacyStatusCode res; legacyHeaders := legacyHeaders res;
     legacyBody := Some (LegacySent text) |}.

Definition legacyPipe (range : option NumRange) (res : LegacyRes) : LegacyRes :=
  {| legacyStatusCode := legacyStatusCode res; legacyHeaders := legacyHeaders res;
     legacyBody := Some (LegacyPiped range) |}.

(** A response of the current handler read as one of the earlier handler. *)
Definition toLegacy (res : Res) : LegacyRes :=
  {| legacyStatusCode := statusCode res;
     legacyHeaders := resHeaders res;
     legacyBody :=
       match body res with
       | Some (Sent text) => Some (LegacySent text)
       | Some (Piped (Some r)) =>
           Some (LegacyPiped (Some {| nstart := Int (start r); nend := Int (end_ r) |}))
       | Some (Piped None) => Some (LegacyPiped None)
       | None => None
       end |}.

Section LegacyHandler.

Variable newURL : string -> option URL.
Variable stringToNumber : string -> number.
Variable loadAttributes : string -> Result FileAttributes.

(** The [try] block of the earlier handler after the metadata is loaded. *)
Definition respond_legacy (req : Request) (file : FileAttributes) (res : LegacyRes)
  : LegacyRes :=
  let fileName :=
    match name file with
    | Some n => if truthy n then n else "download.bin"
    | None => "download.bin"
    end in
  let fileSize := Number stringToNumber (size file) in
  let res :=
    res |> legacySetHeader "Content-Disposition"
             ("attachment; filename*=UTF-8''" ++ encodeURIComponent fileName)
        |> legacySetHeader "Accept-Ranges" "bytes"
        |> legacySetHeader "Cache-Control" "no-store" in
  match parseRangeNum (headers req !! "range") fileSize with
  | Some range =>
      let chunkSize :=
        JsNumber.add (JsNumber.sub (nend range) (nstart range)) (Int 1) in
      res |> legacyStatus 206
          |> legacySetHeader "Content-Type" "application/octet-stream"
          |> legacySetHeader "Content-Range"
               ("bytes " ++ JsNumber.toString (nstart range) ++ "-"
                ++ JsNumber.toString (nend range) ++ "/" ++ JsNumber.toString fileSize)
          |> legacySetHeader "Content-Length" (JsNumber.toString chunkSize)
          |> legacyPipe (Some range)
  | None =>
      let res := res |> legacyStatus 200 in
      let res :=
        if JsNumber.isFinite fileSize
        then res |> legacySetHeader "Content-Length" (JsNumber.toString fileSize)
        else res in
      res |> legacySetHeader "Content-Type" "application/octet-stream"
          |> legacyPipe None
  end.

(** [app.get("/dl", ...)] of the earlier server. *)
Definition dl_legacy (req : Request) : LegacyRes :=
  match query req !! "link" with
  | None =>
      legacyRes0 |> legacyStatus 400
                 |> legacySend "Missing ?link=<MEGA_PUBLIC_FILE_URL>"
  | Some megaLink =>
      if negb (truthy megaLink) then
        legacyRes0 |> legacyStatus 400
                   |> legacySend "Missing ?link=<MEGA_PUBLIC_FILE_URL>"
      else if negb (isAllowedMegaLink_legacy newURL megaLink) then
        legacyRes0 |> legacyStatus 400
                   |> legacySend "Only public MEGA FILE links are supported."
      else
        match loadAttributes megaLink with
        | Ok file => respond_legacy req file legacyRes0
        | Throw err =>
            legacyRes0 |> legacyStatus 500
                       |> legacySend "Failed to fetch from MEGA. Check the link and try again."
        end
  end.

End LegacyHandler.

(** ** More definitions used to state the properties *)

(** A character that [encodeURIComponent] can put out: one it leaves alone,
    or the percent sign. *)
Definition isEncoded (c : ascii) : bool := isUnreserved c || Ascii.eqb c "%".

Fixpoint allEncoded (s : string) : bool :=
  match s with
  | EmptyString => true
  | String c s' => isEncoded c && allEncoded s'
  end.

(** The request [req] with its [Range] header set to [h]. *)
Definition withRange (h : string) (req : Request) : Request :=
  {| query := query req; headers := <["range" := h]> (headers req) |}.

(** The statuses that the current handler sets with a text. *)
Definition errorStatuses : list Z := [400; 403; 404; 410; 429; 500; 503].

(** [t] begins with a decimal digit. *)
Definition startsWithDigit (t : string) : bool :=
  match t with
  | EmptyString => false
  | String c _ => match digitVal c with Some _ => true | None => false end
  end.

(** What [parseRange] makes of the pieces left and right of the first dash,
    once the header is known to begin with [bytes=]. *)
Definition windowOfPieces (startStr endStr : option string) (size : Z)
  : option ByteRange :=
  let start0 :=
    match startStr with
    | Some s => if truthy s then parseInt s else Int 0
    | None => Int 0
    end in
  let end0 :=
    match endStr with
    | Some s => if truthy s then parseInt s else Int (size - 1)
    | None => Int (size - 1)
    end in
  let start1 := match start0 with NaN => 0 | Int z => z end in
  let end1 :=
    match end0 with
    | NaN => size - 1
    | Int z => if z >=? size then size - 1 else z
    end in
  if (start1 >? end1) || (start1 <? 0) then None
  else Some {| start := start1; end_ := end1 |}.

(** A provider that answers like [sampleProvider] on the links that pass the
    current validator and throws on every other link. *)
Definition strictProvider (n : SizeField) (link : string) : Result FileAttributes :=
  if isAllowedMegaLink sampleURL link then sampleProvider n link
  else Throw {| message := Some "not a validated link"; code := None |}.

(** * Properties *)

Example parseRange_0_99 :
  parseRange (Some "bytes=0-99") 1000 = Some {| start := 0; end_ := 99 |}.
Proof. reflexivity. Qed.

Example toString_samples :
  toString 0 = "0" /\ toString 1000 = "1000" /\ toString 99 = "99" /\ toString (-7) = "-7"
  /\ toString 1234567890123 = "1234567890123".
Proof. repeat split; reflexivity. Qed.

Example encode_samples :
  encodeURIComponent "a b.bin" = "a%20b.bin" /\ encodeURIComponent "x/y?z" = "x%2Fy%3Fz".
Proof. split; reflexivity. Qed.

Example parseInt_samples :
  parseInt "12abc" = Int 12 /\ parseInt " 7" = Int 7 /\ parseInt "" = NaN
  /\ parseInt "abc" = NaN /\ parseInt "10,20" = Int 10 /\ parseInt "+5" = Int 5.
Proof. repeat split; reflexivity. Qed.


(** ** Facts about the string functions *)

Lemma startsWith_spec (s p : string) :
  startsWith s p = true <-> exists rest, s = p ++ rest.
Proof.
  revert s. induction p as [|a p IH]; intros s; simpl.
  - split; [intros _; exists s; reflexivity | reflexivity].
  - destruct s as [|b s].
    + split; [discriminate | intros [rest H]; discriminate].
    + destruct (Ascii.eqb_spec a b) as [->|Hne].
      * rewrite IH. split; intros [rest H]; exists rest.
        -- now rewrite H.
        -- now injection H.
      * split; [discriminate | intros [rest H]; injection H; congruence].
Qed.

Lemma arrayIncludes_In (a : list string) (x : string) :
  arrayIncludes a x = true <-> In x a.
Proof.
  unfold arrayIncludes. rewrite existsb_exists. split.
  - intros [y [Hy Heq]]. apply String.eqb_eq in Heq. now subst.
  - intros H. exists x. split; [assumption | apply String.eqb_refl].
Qed.

Lemma replace_bytes (x : string) : replace "bytes=" "" ("bytes=" ++ x) = x.
Proof. reflexivity. Qed.

Lemma split_noDash (e : string) : noDash e = true -> split "-" e = [e].
Proof.
  induction e as [|c e IH]; simpl; [reflexivity |].
  intros H. apply andb_prop in H as [Hc He].
  apply negb_true_iff in Hc. rewrite Hc, (IH He). reflexivity.
Qed.

Lemma split_dash (s e : string) :
  noDash s = true -> split "-" (s ++ String "-" e) = s :: split "-" e.
Proof.
  induction s as [|c s IH]; simpl; [reflexivity |].
  intros H. apply andb_prop in H as [Hc Hs].
  apply negb_true_iff in Hc. rewrite Hc, (IH Hs). reflexivity.
Qed.

Lemma allDigits_noDash (s : string) : allDigits s = true -> noDash s = true.
Proof.
  induction s as [|c s IH]; simpl; [reflexivity |].
  destruct (digitVal c) eqn:Hd; [| discriminate].
  intros H. rewrite (IH H), andb_true_r.
  destruct (Ascii.eqb_spec c "-") as [->|]; [discriminate | reflexivity].
Qed.

(** ** Printing a number and reading it back *)

Lemma digitVal_digitChar (d : Z) : 0 <= d < 10 -> digitVal (digitChar d) = Some d.
Proof.
  intros H.
  assert (d = 0 \/ d = 1 \/ d = 2 \/ d = 3 \/ d = 4 \/ d = 5 \/ d = 6 \/ d = 7
          \/ d = 8 \/ d = 9) as Hd by lia.
  repeat (destruct Hd as [-> | Hd]; [reflexivity |]). now subst.
Qed.

Lemma parseDigits_digitChar (a d : Z) (t : string) :
  0 <= d < 10 -> parseDigits a (String (digitChar d) t) = parseDigits (a * 10 + d) t.
Proof. intros H. simpl. now rewrite digitVal_digitChar. Qed.

Lemma digitsOf_head (fuel : nat) (n : Z) (acc : string) :
  exists d t, 0 <= d < 10 /\ digitsOf fuel n acc = String (digitChar d) t.
Proof.
  revert n acc. induction fuel as [|fuel IH]; intros n acc; simpl.
  - exists (n mod 10), acc. split; [apply Z.mod_pos_bound; lia | reflexivity].
  - destruct (n <? 10).
    + exists (n mod 10), acc. split; [apply Z.mod_pos_bound; lia | reflexivity].
    + apply IH.
Qed.

Lemma digitsOf_allDigits (fuel : nat) (n : Z) (acc : string) :
  allDigits acc = true -> allDigits (digitsOf fuel n acc) = true.
Proof.
  revert n acc. induction fuel as [|fuel IH]; intros n acc Hacc.
  - simpl. rewrite digitVal_digitChar by (apply Z.mod_pos_bound; lia). assumption.
  - cbn [digitsOf]. destruct (n <? 10).
    + simpl. rewrite digitVal_digitChar by (apply Z.mod_pos_bound; lia). assumption.
    + apply IH. simpl.
      rewrite digitVal_digitChar by (apply Z.mod_pos_bound; lia). assumption.
Qed.

Lemma parseDigits_digitsOf (fuel : nat) (n : Z) (acc : string) :
  0 <= n < 2 ^ (Z.of_nat fuel + 1) ->
  parseDigits 0 (digitsOf fuel n acc) = parseDigits n acc.
Proof.
  revert n acc. induction fuel as [|fuel IH]; intros n acc Hn.
  - change (2 ^ (Z.of_nat 0 + 1)) with 2 in Hn. cbn [digitsOf].
    rewrite parseDigits_digitChar by (apply Z.mod_pos_bound; lia).
    rewrite Z.mod_small by lia. reflexivity.
  - cbn [digitsOf]. destruct (Z.ltb_spec n 10) as [Hlt | Hge].
    + rewrite parseDigits_digitChar by (apply Z.mod_pos_bound; lia).
      rewrite Z.mod_small by lia. reflexivity.
    + rewrite IH.
      * rewrite parseDigits_digitChar by (apply Z.mod_pos_bound; lia).
        f_equal. pose proof (Z.div_mod n 10). lia.
      * replace (Z.of_nat (S fuel) + 1) with (Z.succ (Z.of_nat fuel + 1)) in Hn by lia.
        rewrite Z.pow_succ_r in Hn by lia.
        split; [apply Z.div_pos; lia |].
        apply Z.div_lt_upper_bound; lia.
Qed.

Lemma parseInt_digit_head (c : ascii) (d : Z) (t : string) :
  digitVal c = Some d -> parseInt (String c t) = Int (parseDigits 0 (String c t)).
Proof.
  intros H. unfold parseInt.
  assert (isWhiteSpace c = false) as Hw.
  { unfold digitVal in H. unfold isWhiteSpace.
    destruct ((48 <=? charCode c) && (charCode c <=? 57)) eqn:E; [| discriminate].
    apply andb_prop in E as [E1 E2]. lia. }
  cbn [trimStart]. rewrite Hw.
  assert (c <> "-"%char /\ c <> "+"%char) as [Hm Hp].
  { split; intros ->; discriminate. }
  destruct c as [[] [] [] [] [] [] [] []];
    try congruence; rewrite ?H; try discriminate; now rewrite ?Z.mul_1_l.
Qed.

Lemma toString_nonneg (n : Z) :
  0 <= n -> toString n = digitsOf (Z.to_nat (Z.log2 n)) n EmptyString.
Proof. intros H. unfold toString. destruct (Z.ltb_spec n 0); [lia | reflexivity]. Qed.

Lemma parseInt_toString (n : Z) : 0 <= n -> parseInt (toString n) = Int n.
Proof.
  intros H. rewrite toString_nonneg by assumption.
  destruct (digitsOf_head (Z.to_nat (Z.log2 n)) n EmptyString) as (d & t & Hd & E).
  rewrite E, (parseInt_digit_head _ d) by now apply digitVal_digitChar.
  rewrite <- E, parseDigits_digitsOf; [reflexivity |].
  rewrite Z2Nat.id by apply Z.log2_nonneg.
  destruct (Z.eq_dec n 0) as [-> | Hne]; [simpl; lia |].
  pose proof (Z.log2_spec n). rewrite <- Z.add_1_r in *. lia.
Qed.

Lemma toString_allDigits (n : Z) : 0 <= n -> allDigits (toString n) = true.
Proof.
  intros H. rewrite toString_nonneg by assumption. now apply digitsOf_allDigits.
Qed.

Lemma toString_truthy (n : Z) : 0 <= n -> truthy (toString n) = true.
Proof.
  intros H. rewrite toString_nonneg by assumption.
  destruct (digitsOf_head (Z.to_nat (Z.log2 n)) n EmptyString) as (d & t & _ & E).
  now rewrite E.
Qed.

(** ** The link validator *)

Lemma startsWith_f_shapes (p : string) :
  startsWith p "/f/" = true -> startsWith p "/#!" = false /\ String.eqb p "/" = false.
Proof.
  intros H. apply startsWith_spec in H as [rest ->]. split; reflexivity.
Qed.

Lemma isAllowedMegaLink_unparsed (newURL : string -> option URL) (str : string) :
  newURL str = None ->
  isAllowedMegaLink newURL str = false /\ isAllowedMegaLink_legacy newURL str = false.
Proof.
  intros H. unfold isAllowedMegaLink, isAllowedMegaLink_legacy. now rewrite H.
Qed.

Lemma isAllowedMegaLink_bad_host (newURL : string -> option URL) (str : string) (u : URL) :
  newURL str = Some u -> ~ In (hostname u) allowedHosts ->
  isAllowedMegaLink newURL str = false /\ isAllowedMegaLink_legacy newURL str = false.
Proof.
  intros H Hh. unfold isAllowedMegaLink, isAllowedMegaLink_legacy. rewrite H.
  destruct (arrayIncludes allowedHosts (hostname u)) eqn:E.
  - apply arrayIncludes_In in E. contradiction.
  - split; reflexivity.
Qed.

(** C1. The validator answers [true] exactly when the link parses as a URL
    whose hostname is one of the four allowed ones and whose shape is one of
    the three file-link shapes: a path that begins with [/file/], the root
    path with a fragment that begins with [#!], or a path that begins with
    [/#!].  So it answers [false] on every string that does not parse, on
    every URL with another host whatever its path, and on an allowed host
    with a path [/folder/...]; on an allowed host with a path [/file/...] it
    answers [true]. *)
Theorem isAllowedMegaLink_correct (newURL : string -> option URL) :
  (forall str,
     isAllowedMegaLink newURL str = true <->
     exists u, newURL str = Some u
       /\ In (hostname u) ["mega.nz"; "www.mega.nz"; "mega.co.nz"; "www.mega.co.nz"]
       /\ ((exists rest, pathname u = "/file/" ++ rest)
           \/ (pathname u = "/" /\ exists rest, hash u = "#!" ++ rest)
           \/ (exists rest, pathname u = "/#!" ++ rest)))
  /\ (forall str, newURL str = None -> isAllowedMegaLink newURL str = false)
  /\ (forall str u, newURL str = Some u -> ~ In (hostname u) allowedHosts ->
        isAllowedMegaLink newURL str = false)
  /\ (forall str u rest, newURL str = Some u -> In (hostname u) allowedHosts ->
        pathname u = "/folder/" ++ rest -> isAllowedMegaLink newURL str = false)
  /\ (forall str u rest, newURL str = Some u -> In (hostname u) allowedHosts ->
        pathname u = "/file/" ++ rest -> isAllowedMegaLink newURL str = true).
Proof.
  repeat apply conj.
  - intros str. unfold isAllowedMegaLink. destruct (newURL str) as [u|].
    + rewrite andb_true_iff, !orb_true_iff, andb_true_iff, String.eqb_eq.
      rewrite arrayIncludes_In, !startsWith_spec. split.
      * intros [Hh Hs]. exists u. tauto.
      * intros (u' & [= <-] & Hh & Hs). tauto.
    + split; [discriminate | intros (u & [=] & _)].
  - intros str H. now apply isAllowedMegaLink_unparsed.
  - intros str u H Hh. now apply (isAllowedMegaLink_bad_host newURL str u).
  - intros str u rest H _ Hp. unfold isAllowedMegaLink. rewrite H, Hp.
    apply andb_false_r.
  - intros str u rest H Hh Hp. unfold isAllowedMegaLink. rewrite H, Hp.
    apply arrayIncludes_In in Hh. now rewrite Hh.
Qed.

Lemma isAllowedMegaLink_correct_witness :
  isAllowedMegaLink sampleURL "https://mega.nz/folder/XXXX" = false
  /\ isAllowedMegaLink sampleURL "https://mega.nz/file/XXXX" = true
  /\ isAllowedMegaLink sampleURL "https://example.com/file/XXXX" = false
  /\ isAllowedMegaLink sampleURL "not a link" = false.
Proof.
  destruct (isAllowedMegaLink_correct sampleURL) as (_ & Hnone & Hhost & Hfolder & Hfile).
  repeat apply conj.
  - apply (Hfolder _ {| hostname := "mega.nz"; pathname := "/folder/XXXX"; hash := "" |} "XXXX");
      [reflexivity | simpl; tauto | reflexivity].
  - apply (Hfile _ {| hostname := "mega.nz"; pathname := "/file/XXXX"; hash := "" |} "XXXX");
      [reflexivity | simpl; tauto | reflexivity].
  - apply (Hhost _ {| hostname := "example.com"; pathname := "/file/XXXX"; hash := "" |});
      [reflexivity |].
    simpl. intros [H | [H | [H | [H | []]]]]; discriminate.
  - apply Hnone. reflexivity.
Defined.

(** The two validators disagree on a folder link of an allowed host, and on
    the bare root of an allowed host. *)
Lemma validators_differ :
  sampleURL "https://mega.nz/folder/XXXX"
    = Some {| hostname := "mega.nz"; pathname := "/folder/XXXX"; hash := "" |}
  /\ isAllowedMegaLink sampleURL "https://mega.nz/folder/XXXX" = false
  /\ isAllowedMegaLink_legacy sampleURL "https://mega.nz/folder/XXXX" = true
  /\ isAllowedMegaLink sampleURL "https://mega.nz/" = false
  /\ isAllowedMegaLink_legacy sampleURL "https://mega.nz/" = true
  /\ ~ (forall str, isAllowedMegaLink sampleURL str = isAllowedMegaLink_legacy sampleURL str).
Proof.
  repeat apply conj; try reflexivity.
  intros H. specialize (H "https://mega.nz/"). discriminate.
Qed.

(** C10, as amended.  Every link that the current validator accepts the
    earlier one accepts too, and the two give the same answer on every
    string that does not parse, on every URL with a host outside the
    allowlist, and on every URL whose path begins with [/file/], [/#!] or
    [/f/]. *)
Theorem validators_agreement (newURL : string -> option URL) (str : string) :
  (isAllowedMegaLink newURL str = true -> isAllowedMegaLink_legacy newURL str = true)
  /\ (newURL str = None ->
        isAllowedMegaLink newURL str = isAllowedMegaLink_legacy newURL str)
  /\ (forall u, newURL str = Some u -> ~ In (hostname u) allowedHosts ->
        isAllowedMegaLink newURL str = isAllowedMegaLink_legacy newURL str)
  /\ (forall u, newURL str = Some u ->
        startsWith (pathname u) "/file/" = true
        \/ startsWith (pathname u) "/#!" = true
        \/ startsWith (pathname u) "/f/" = true ->
        isAllowedMegaLink newURL str = isAllowedMegaLink_legacy newURL str).
Proof.
  repeat apply conj.
  - unfold isAllowedMegaLink, isAllowedMegaLink_legacy.
    destruct (newURL str) as [u|]; [| discriminate].
    destruct (arrayIncludes allowedHosts (hostname u)); [| discriminate].
    rewrite !andb_true_l.
    destruct (startsWith (pathname u) "/file/"); [reflexivity |].
    destruct (startsWith (pathname u) "/#!"); [reflexivity |].
    rewrite orb_false_r, !orb_false_l. intros H. apply andb_prop in H as [H _].
    apply String.eqb_eq in H. now rewrite H.
  - intros H. destruct (isAllowedMegaLink_unparsed newURL str H). congruence.
  - intros u H Hh. destruct (isAllowedMegaLink_bad_host newURL str u H Hh). congruence.
  - intros u H Hs. unfold isAllowedMegaLink, isAllowedMegaLink_legacy. rewrite H.
    f_equal. destruct (startsWith (pathname u) "/file/") eqn:E1; [reflexivity |].
    destruct (startsWith (pathname u) "/#!") eqn:E2; [apply orb_true_r |].
    destruct Hs as [Hs | [Hs | Hs]]; try discriminate.
    destruct (startsWith_f_shapes _ Hs) as [_ E3]. now rewrite Hs, E3.
Qed.

Lemma validators_agreement_witness :
  isAllowedMegaLink_legacy sampleURL "https://mega.nz/#!XXXX!KEY" = true
  /\ isAllowedMegaLink sampleURL "https://mega.nz/file/XXXX"
     = isAllowedMegaLink_legacy sampleURL "https://mega.nz/file/XXXX".
Proof.
  split.
  - apply (proj1 (validators_agreement sampleURL "https://mega.nz/#!XXXX!KEY")).
    reflexivity.
  - destruct (validators_agreement sampleURL "https://mega.nz/file/XXXX")
      as (_ & _ & _ & H).
    apply (H {| hostname := "mega.nz"; pathname := "/file/XXXX"; hash := "" |});
      [reflexivity | left; reflexivity].
Defined.

(** ** The error mapping *)

Lemma find_first {A : Type} (f : A -> bool) (l : list A) (i : nat) (x : A) :
  l !! i = Some x -> f x = true ->
  (forall j y, (j < i)%nat -> l !! j = Some y -> f y = false) ->
  List.find f l = Some x.
Proof.
  revert i. induction l as [|a l IH]; intros i Hi Hx Hbefore; [discriminate |].
  destruct i as [|i]; simpl in *.
  - injection Hi as ->. now rewrite Hx.
  - rewrite (Hbefore 0%nat a) by (reflexivity || lia).
    apply (IH i); [assumption | assumption |].
    intros j y Hj Hy. apply (Hbefore (S j) y); [lia | assumption].
Qed.

Lemma find_none {A : Type} (f : A -> bool) (l : list A) :
  (forall x, f x = false) -> List.find f l = None.
Proof.
  intros H. induction l as [|a l IH]; simpl; [reflexivity |]. now rewrite H.
Qed.

Ltac case_signals err :=
  repeat (match goal with
          | |- context [messageIncludes err ?x] => destruct (messageIncludes err x)
          | |- context [codeIs err ?k] => destruct (codeIs err k)
          end; cbn; try reflexivity).

Lemma mapError_status (err : Error) (res : Res) :
  statusCode (mapError err res) = tableStatus err.
Proof.
  unfold mapError, tableStatus, errorTable, matches. cbn. case_signals err.
Qed.

Lemma mapError_sends (err : Error) (res : Res) :
  exists text, body (mapError err res) = Some (Sent text).
Proof.
  unfold mapError. case_signals err; eexists; reflexivity.
Qed.

Lemma matches_channels (err : Error) (c : Condition) :
  matches err c = true <->
  (exists x m, In x (fst (signals c)) /\ message err = Some m /\ includes m x = true)
  \/ (exists k, snd (signals c) = Some k /\ code err = Some k).
Proof.
  unfold matches. rewrite orb_true_iff, existsb_exists.
  assert ((exists x, In x (fst (signals c)) /\ messageIncludes err x = true) <->
          (exists x m, In x (fst (signals c)) /\ message err = Some m
                       /\ includes m x = true)) as Hmsg.
  { unfold messageIncludes. split.
    - intros (x & Hx & H). destruct (message err) as [m|]; [| discriminate].
      exists x, m. auto.
    - intros (x & m & Hx & Hm & H). exists x. now rewrite Hm. }
  assert (match snd (signals c) with Some k => codeIs err k | None => false end = true <->
          (exists k, snd (signals c) = Some k /\ code err = Some k)) as Hcode.
  { unfold codeIs. destruct (snd (signals c)) as [k|].
    - destruct (code err) as [k'|].
      + rewrite Z.eqb_eq. split.
        * intros ->. now exists k.
        * intros (k0 & [= <-] & [= ->]). reflexivity.
      + split; [discriminate | intros (k0 & _ & [=])].
    - split; [discriminate | intros (k0 & [=] & _)]. }
  tauto.
Qed.

(** C2. The [catch] branch is a function of the error: the status it sets is
    that of the first row of the table that matches, in the order 404, 403,
    410, 429, 400, 503, a row matching through the message or through the
    code, and 500 when no row matches, with the error's message in the text
    sent. *)
Theorem mapError_table (err : Error) (res : Res) :
  statusCode (mapError err res) = tableStatus err
  /\ (exists text, body (mapError err res) = Some (Sent text))
  /\ (forall c,
        matches err c = true <->
        (exists x m, In x (fst (signals c)) /\ message err = Some m /\ includes m x = true)
        \/ (exists k, snd (signals c) = Some k /\ code err = Some k))
  /\ (forall i c st,
        errorTable !! i = Some (c, st) ->
        matches err c = true ->
        (forall j c' st', (j < i)%nat -> errorTable !! j = Some (c', st') ->
                          matches err c' = false) ->
        statusCode (mapError err res) = st)
  /\ ((forall c, matches err c = false) ->
        statusCode (mapError err res) = 500
        /\ body (mapError err res)
           = Some (Sent ("Failed to fetch from MEGA: " ++ messageOr err "Unknown error"))
        /\ (forall m, message err = Some m -> m <> "" ->
              messageOr err "Unknown error" = m)).
Proof.
  split; [apply mapError_status |].
  split; [apply mapError_sends |].
  split; [apply matches_channels |].
  split.
  - intros i c st Hi Hc Hbefore. rewrite mapError_status. unfold tableStatus.
    rewrite (find_first _ errorTable i (c, st)); try assumption; [reflexivity |].
    intros j [c' st'] Hj Hy. now apply (Hbefore j c' st').
  - intros Hnone. split; [| split].
    + rewrite mapError_status. unfold tableStatus.
      rewrite find_none; [reflexivity | intros [c st]; apply Hnone].
    + pose proof (Hnone NotFound) as H1. pose proof (Hnone AccessDenied) as H2.
      pose proof (Hnone Expired) as H3. pose proof (Hnone QuotaExceeded) as H4.
      pose proof (Hnone BadKey) as H5. pose proof (Hnone TempUnavailable) as H6.
      unfold matches in *. cbn in H1, H2, H3, H4, H5, H6.
      rewrite ?orb_false_r in *.
      unfold mapError. rewrite H1, H2, H3, H4, H5, H6. reflexivity.
    + intros m Hm Hne. unfold messageOr. rewrite Hm.
      destruct m; [congruence | reflexivity].
Qed.

Lemma mapError_table_witness :
  statusCode (mapError {| message := Some "EACCESS and ENOENT"; code := Some (-11) |} res0)
  = 404
  /\ statusCode (mapError {| message := None; code := Some (-18) |} res0) = 503
  /\ body (mapError {| message := Some "socket hang up"; code := None |} res0)
     = Some (Sent "Failed to fetch from MEGA: socket hang up").
Proof.
  split; [| split].
  - destruct (mapError_table {| message := Some "EACCESS and ENOENT"; code := Some (-11) |}
                res0) as (_ & _ & _ & H & _).
    apply (H 0%nat NotFound 404); [reflexivity | reflexivity |].
    intros j c' st' Hj. lia.
  - destruct (mapError_table {| message := None; code := Some (-18) |} res0)
      as (_ & _ & _ & H & _).
    apply (H 5%nat TempUnavailable 503); [reflexivity | reflexivity |].
    intros j c' st' Hj Hrow.
    do 5 (destruct j as [|j]; [injection Hrow as <- <-; reflexivity |]). lia.
  - destruct (mapError_table {| message := Some "socket hang up"; code := None |} res0)
      as (_ & _ & _ & _ & H).
    destruct H as (_ & H & _); [intros []; reflexivity | exact H].
Defined.

(** ** The range parser *)

Lemma parseRange_bounds (h : option string) (size : Z) (r : ByteRange) :
  parseRange h size = Some r -> 0 <= start r <= end_ r /\ end_ r <= size - 1.
Proof.
  unfold parseRange. destruct h as [h|]; [| discriminate].
  destruct (negb (truthy h) || negb (startsWith h "bytes=")); [discriminate |].
  cbv zeta.
  match goal with
  | |- context [if (?a >? ?b) || (?a <? 0) then _ else _] =>
      generalize a; intros st;
      match goal with
      | |- context [match ?e0 with NaN => _ | Int _ => _ end] =>
          generalize e0; intros e0'
      end
  end.
  destruct ((st >? _) || (st <? 0)) eqn:E; [discriminate |].
  intros [= <-]. cbn [start end_].
  apply orb_false_elim in E as [E1 E2].
  destruct e0' as [|z]; [lia |].
  destruct (Z.geb_spec z size); lia.
Qed.

Lemma parseRange_absent (size : Z) : parseRange None size = None.
Proof. reflexivity. Qed.

Lemma parseRange_other_unit (h : string) (size : Z) :
  startsWith h "bytes=" = false -> parseRange (Some h) size = None.
Proof. intros H. unfold parseRange. now rewrite H, orb_true_r. Qed.

Lemma defaultStart_empty : defaultStart "" = 0.
Proof. reflexivity. Qed.

Lemma clampEnd_bound (e : string) (size : Z) : clampEnd e size <= size - 1.
Proof.
  unfold clampEnd. destruct (parseInt e) as [|z]; [lia |].
  destruct (Z.ltb_spec z size); lia.
Qed.

(** The window of a header [bytes=s-e]. *)
Lemma parseRange_dash (s e : string) (size : Z) :
  noDash s = true -> noDash e = true ->
  parseRange (Some ("bytes=" ++ s ++ "-" ++ e)) size
  = if (defaultStart s >? clampEnd e size) || (defaultStart s <? 0) then None
    else Some {| start := defaultStart s; end_ := clampEnd e size |}.
Proof.
  intros Hs He. unfold parseRange.
  change (truthy ("bytes=" ++ s ++ "-" ++ e)) with true.
  change (startsWith ("bytes=" ++ s ++ "-" ++ e) "bytes=") with true.
  cbn [negb orb]. rewrite replace_bytes.
  change (s ++ "-" ++ e) with (s ++ String "-" e).
  rewrite (split_dash s e Hs), (split_noDash e He). cbn [lookup list_lookup].
  assert (match (if truthy s then parseInt s else Int 0) with
          | NaN => 0 | Int z => z end = defaultStart s) as ->.
  { unfold defaultStart. destruct s; reflexivity. }
  assert (match (if truthy e then parseInt e else Int (size - 1)) with
          | NaN => size - 1
          | Int z => if z >=? size then size - 1 else z
          end = clampEnd e size) as ->.
  { unfold clampEnd. destruct e as [|c e].
    - cbn [truthy]. change (parseInt "") with NaN. cbv iota.
      destruct (size - 1 >=? size); reflexivity.
    - cbn [truthy]. destruct (parseInt (String c e)) as [|z]; [reflexivity |].
      destruct (Z.geb_spec z size), (Z.ltb_spec z size); lia || reflexivity. }
  reflexivity.
Qed.

(** The window of a header [bytes=s], with no dash. *)
Lemma parseRange_no_dash (s : string) (size : Z) :
  noDash s = true ->
  parseRange (Some ("bytes=" ++ s)) size
  = if (defaultStart s >? size - 1) || (defaultStart s <? 0) then None
    else Some {| start := defaultStart s; end_ := size - 1 |}.
Proof.
  intros Hs. unfold parseRange.
  change (truthy ("bytes=" ++ s)) with true.
  change (startsWith ("bytes=" ++ s) "bytes=") with true.
  cbn [negb orb]. rewrite replace_bytes, (split_noDash s Hs). cbn [lookup list_lookup].
  assert (match (if truthy s then parseInt s else Int 0) with
          | NaN => 0 | Int z => z end = defaultStart s) as ->.
  { unfold defaultStart. destruct s; reflexivity. }
  destruct (size - 1 >=? size); reflexivity.
Qed.

(** C7. With nothing left of the dash the start is 0, and the number right
    of the dash is the end, not a count of bytes from the end of the file:
    for a positive [size] and [0 <= N <= size - 1] the header [bytes=-N]
    gives the window from 0 to [N]; [bytes=-100] on 1000 bytes gives 0 to
    100. *)
Theorem parseRange_suffix_form :
  (forall size N, 0 < size -> 0 <= N <= size - 1 ->
     parseRange (Some ("bytes=-" ++ toString N)) size = Some {| start := 0; end_ := N |})
  /\ parseRange (Some "bytes=-100") 1000 = Some {| start := 0; end_ := 100 |}.
Proof.
  split; [| reflexivity].
  intros size N Hsize HN.
  change ("bytes=-" ++ toString N) with ("bytes=" ++ "" ++ "-" ++ toString N).
  rewrite parseRange_dash;
    [| reflexivity | apply allDigits_noDash, toString_allDigits; lia].
  rewrite defaultStart_empty. unfold clampEnd. rewrite parseInt_toString by lia.
  destruct (Z.ltb_spec N size); [| lia].
  destruct (Z.gtb_spec 0 N); [lia | reflexivity].
Qed.

Lemma parseRange_suffix_form_witness :
  parseRange (Some ("bytes=-" ++ toString 42)) 64 = Some {| start := 0; end_ := 42 |}.
Proof. apply (proj1 parseRange_suffix_form); lia. Defined.

(** C8. For a positive [size]: an end that is missing (with or without the
    dash), not a number, or at or past [size] becomes [size - 1]; a start
    that is missing or not a number becomes 0.  So [bytes=500-] on 1000
    bytes is the window 500 to 999 and [bytes=900-1500] is 900 to 999. *)
Theorem parseRange_defaults :
  (forall size s e a,
     0 < size -> noDash s = true -> noDash e = true ->
     e = "" \/ parseInt e = NaN \/ (exists z, parseInt e = Int z /\ size <= z) ->
     parseInt s = Int a -> 0 <= a <= size - 1 ->
     parseRange (Some ("bytes=" ++ s ++ "-" ++ e)) size
     = Some {| start := a; end_ := size - 1 |})
  /\ (forall size s a,
        0 < size -> noDash s = true -> parseInt s = Int a -> 0 <= a <= size - 1 ->
        parseRange (Some ("bytes=" ++ s)) size = Some {| start := a; end_ := size - 1 |})
  /\ (forall size s e b,
        0 < size -> noDash s = true -> noDash e = true ->
        parseInt s = NaN -> parseInt e = Int b -> 0 <= b < size ->
        parseRange (Some ("bytes=" ++ s ++ "-" ++ e)) size
        = Some {| start := 0; end_ := b |})
  /\ (forall size s e,
        0 < size -> noDash s = true -> noDash e = true ->
        parseInt s = NaN ->
        e = "" \/ parseInt e = NaN \/ (exists z, parseInt e = Int z /\ size <= z) ->
        parseRange (Some ("bytes=" ++ s ++ "-" ++ e)) size
        = Some {| start := 0; end_ := size - 1 |})
  /\ parseRange (Some "bytes=500-") 1000 = Some {| start := 500; end_ := 999 |}
  /\ parseRange (Some "bytes=900-1500") 1000 = Some {| start := 900; end_ := 999 |}.
Proof.
  assert (forall size e,
             e = "" \/ parseInt e = NaN \/ (exists z, parseInt e = Int z /\ size <= z) ->
             clampEnd e size = size - 1) as Hclamp.
  { intros size e [-> | [H | (z & H & Hz)]]; unfold clampEnd.
    - reflexivity.
    - now rewrite H.
    - rewrite H. destruct (Z.ltb_spec z size); [lia | reflexivity]. }
  repeat apply conj; try reflexivity.
  - intros size s e a Hsize Hs He Hend Hstart Ha.
    rewrite parseRange_dash by assumption. rewrite (Hclamp _ _ Hend).
    unfold defaultStart. rewrite Hstart.
    destruct (Z.gtb_spec a (size - 1)), (Z.ltb_spec a 0); lia || reflexivity.
  - intros size s a Hsize Hs Hstart Ha.
    rewrite parseRange_no_dash by assumption.
    unfold defaultStart. rewrite Hstart.
    destruct (Z.gtb_spec a (size - 1)), (Z.ltb_spec a 0); lia || reflexivity.
  - intros size s e b Hsize Hs He Hstart Hend Hb.
    rewrite parseRange_dash by assumption.
    unfold defaultStart, clampEnd. rewrite Hstart, Hend.
    destruct (Z.ltb_spec b size); [| lia].
    destruct (Z.gtb_spec 0 b); [lia | reflexivity].
  - intros size s e Hsize Hs He Hstart Hend.
    rewrite parseRange_dash by assumption. rewrite (Hclamp _ _ Hend).
    unfold defaultStart. rewrite Hstart.
    destruct (Z.gtb_spec 0 (size - 1)); [lia | reflexivity].
Qed.

Lemma parseRange_defaults_witness :
  parseRange (Some ("bytes=" ++ "7" ++ "-" ++ "x9")) 10 = Some {| start := 7; end_ := 9 |}
  /\ parseRange (Some ("bytes=" ++ "abc" ++ "-" ++ "5")) 10 = Some {| start := 0; end_ := 5 |}
  /\ parseRange (Some ("bytes=" ++ "3")) 10 = Some {| start := 3; end_ := 9 |}.
Proof.
  destruct parseRange_defaults as (Hend & Hnodash & Hstart & _).
  split; [| split].
  - apply (Hend 10 "7" "x9" 7);
      [lia | reflexivity | reflexivity | right; left; reflexivity | reflexivity | lia].
  - apply (Hstart 10 "abc" "5" 5);
      [lia | reflexivity | reflexivity | reflexivity | reflexivity | lia].
  - apply (Hnodash 10 "3" 3); [lia | reflexivity | reflexivity | lia].
Defined.

(** C9. A header that lists several ranges is read as its first range only:
    [bytes=0-10,20-30] on 1000 bytes gives the window 0 to 10, neither a
    rejection nor a window built from the other ranges. *)
Theorem parseRange_multi_range :
  parseRange (Some "bytes=0-10,20-30") 1000 = Some {| start := 0; end_ := 10 |}
  /\ parseRange (Some "bytes=0-10,20-30") 1000 = parseRange (Some "bytes=0-10") 1000
  /\ split "-" (replace "bytes=" "" "bytes=0-10,20-30") = ["0"; "10,20"; "30"].
Proof. repeat split; reflexivity. Qed.

(** ** The [/dl] handler *)

Section HandlerFacts.

Variable newURL : string -> option URL.
Variable stringToNumber : string -> number.
Variable loadAttributes : string -> Result FileAttributes.

(** The platform's parser throws on the empty string. *)
Hypothesis newURL_empty : newURL "" = None.

(** A request with a link that validates and resolves reaches the part of
    the handler that answers from the metadata. *)
Lemma dl_resolved (req : Request) (link : string) (file : FileAttributes) :
  query req !! "link" = Some link ->
  isAllowedMegaLink newURL link = true ->
  loadAttributes link = Ok file ->
  dl newURL stringToNumber loadAttributes req = respond stringToNumber req file res0.
Proof using newURL_empty.
  intros Hq Hv Hl. unfold dl. rewrite Hq.
  destruct link as [|c link].
  - unfold isAllowedMegaLink in Hv. rewrite newURL_empty in Hv. discriminate.
  - cbn [truthy negb]. rewrite Hv, Hl. reflexivity.
Qed.

Lemma respond_range (req : Request) (file : FileAttributes) (fileSize : Z)
      (r : ByteRange) :
  Number stringToNumber (size file) = Int fileSize -> fileSize <> 0 ->
  parseRange (headers req !! "range") fileSize = Some r ->
  let res := respond stringToNumber req file res0 in
  statusCode res = 206
  /\ resHeaders res !! "Content-Range"
     = Some ("bytes " ++ toString (start r) ++ "-" ++ toString (end_ r)
             ++ "/" ++ toString fileSize)
  /\ resHeaders res !! "Content-Length" = Some (toString (end_ r - start r + 1))
  /\ resHeaders res !! "Content-Type" = Some "application/octet-stream"
  /\ body res = Some (Piped (Some r)).
Proof.
  intros Hn Hz Hr. unfold respond. rewrite Hn.
  destruct (Z.eqb_spec fileSize 0) as [|_]; [contradiction |].
  rewrite Hr. cbn [statusCode resHeaders body status setHeader pipe].
  repeat split; by simplify_map_eq.
Qed.

Lemma respond_full (req : Request) (file : FileAttributes) (fileSize : Z) :
  Number stringToNumber (size file) = Int fileSize -> fileSize <> 0 ->
  parseRange (headers req !! "range") fileSize = None ->
  isFullResponse (respond stringToNumber req file res0) fileSize.
Proof.
  intros Hn Hz Hr. unfold respond, isFullResponse. rewrite Hn.
  destruct (Z.eqb_spec fileSize 0) as [|_]; [contradiction |].
  rewrite Hr. cbn [statusCode resHeaders body status setHeader pipe].
  repeat split; by simplify_map_eq.
Qed.

Lemma respond_empty (req : Request) (file : FileAttributes) :
  Number stringToNumber (size file) = NaN \/ Number stringToNumber (size file) = Int 0 ->
  respond stringToNumber req file res0
  = res0 |> status 400 |> send "File appears to be empty or invalid.".
Proof.
  intros [H | H]; unfold respond; rewrite H; reflexivity.
Qed.

Lemma respond_piped_range (req : Request) (file : FileAttributes) (r : ByteRange) :
  body (respond stringToNumber req file res0) = Some (Piped (Some r)) ->
  exists fileSize,
    Number stringToNumber (size file) = Int fileSize
    /\ parseRange (headers req !! "range") fileSize = Some r.
Proof.
  unfold respond. destruct (Number stringToNumber (size file)) as [|fileSize]; [discriminate |].
  destruct (fileSize =? 0); [discriminate |].
  destruct (parseRange (headers req !! "range") fileSize) as [r'|] eqn:E;
    cbn [body pipe]; [| discriminate].
  intros [= <-]. now exists fileSize.
Qed.

(** C3. A request whose link validates, whose metadata resolves with a
    positive size and whose [Range] header parses to a window [start] to
    [end] is answered with status 206, [Content-Range: bytes
    start-end/size], [Content-Length: end - start + 1] and [Content-Type:
    application/octet-stream], the provider stream being opened on that
    window; with 1000 bytes and [Range: bytes=0-99] that is 206,
    [bytes 0-99/1000] and a length of 100. *)
Theorem dl_partial_content (req : Request) (link : string) (file : FileAttributes)
        (fileSize : Z) :
  query req !! "link" = Some link ->
  isAllowedMegaLink newURL link = true ->
  loadAttributes link = Ok file ->
  Number stringToNumber (size file) = Int fileSize ->
  0 < fileSize ->
  let res := dl newURL stringToNumber loadAttributes req in
  (forall r,
     parseRange (headers req !! "range") fileSize = Some r ->
     statusCode res = 206
     /\ resHeaders res !! "Content-Range"
        = Some ("bytes " ++ toString (start r) ++ "-" ++ toString (end_ r)
                ++ "/" ++ toString fileSize)
     /\ resHeaders res !! "Content-Length" = Some (toString (end_ r - start r + 1))
     /\ resHeaders res !! "Content-Type" = Some "application/octet-stream"
     /\ body res = Some (Piped (Some r)))
  /\ (fileSize = 1000 -> headers req !! "range" = Some "bytes=0-99" ->
      statusCode res = 206
      /\ resHeaders res !! "Content-Range" = Some "bytes 0-99/1000"
      /\ resHeaders res !! "Content-Length" = Some "100"
      /\ resHeaders res !! "Content-Type" = Some "application/octet-stream").
Proof using newURL_empty.
  intros Hq Hv Hl Hn Hpos res. subst res.
  rewrite (dl_resolved req link file Hq Hv Hl). split.
  - intros r Hr. apply (respond_range req file fileSize r Hn); [lia | assumption].
  - intros -> Hh.
    destruct (respond_range req file 1000 {| start := 0; end_ := 99 |} Hn)
      as (H1 & H2 & H3 & H4 & _); [lia | now rewrite Hh |].
    repeat split; assumption.
Qed.

(** C5. A request whose link validates and whose metadata resolves with a
    positive size is answered with the whole file, status 200,
    [Content-Type: application/octet-stream] and [Content-Length: size],
    when it has no [Range] header, when the header does not begin with
    [bytes=], and whenever the parser rejects the header, as it does
    [bytes=500-100], whose start is past its end. *)
Theorem dl_full_content (req : Request) (link : string) (file : FileAttributes)
        (fileSize : Z) :
  query req !! "link" = Some link ->
  isAllowedMegaLink newURL link = true ->
  loadAttributes link = Ok file ->
  Number stringToNumber (size file) = Int fileSize ->
  0 < fileSize ->
  let res := dl newURL stringToNumber loadAttributes req in
  (headers req !! "range" = None -> isFullResponse res fileSize)
  /\ (forall h, headers req !! "range" = Some h -> startsWith h "bytes=" = false ->
                isFullResponse res fileSize)
  /\ (parseRange (headers req !! "range") fileSize = None ->
      isFullResponse res fileSize)
  /\ parseRange (Some "bytes=500-100") fileSize = None
  /\ (headers req !! "range" = Some "bytes=500-100" ->
      isFullResponse res fileSize).
Proof using newURL_empty.
  intros Hq Hv Hl Hn Hpos res. subst res.
  rewrite (dl_resolved req link file Hq Hv Hl).
  assert (parseRange (headers req !! "range") fileSize = None ->
          isFullResponse (respond stringToNumber req file res0) fileSize) as Hfull.
  { intros Hr. apply respond_full; [assumption | lia | assumption]. }
  assert (parseRange (Some "bytes=500-100") fileSize = None) as Hinv.
  { change "bytes=500-100" with ("bytes=" ++ "500" ++ "-" ++ "100").
    rewrite parseRange_dash by reflexivity.
    change (defaultStart "500") with 500.
    assert (clampEnd "100" fileSize <= 100) as Hend.
    { unfold clampEnd. change (parseInt "100") with (Int 100). cbv iota.
      destruct (Z.ltb_spec 100 fileSize); lia. }
    destruct (Z.gtb_spec 500 (clampEnd "100" fileSize)); [reflexivity | lia]. }
  repeat apply conj.
  - intros Hh. apply Hfull. now rewrite Hh.
  - intros h Hh Hp. apply Hfull. rewrite Hh. now apply parseRange_other_unit.
  - exact Hfull.
  - exact Hinv.
  - intros Hh. apply Hfull. now rewrite Hh.
Qed.

(** C6. A request whose link validates but whose metadata has a size that
    is 0, missing or not a number is answered with status 400 and the
    text of the empty file, which is none of the texts of the error
    mapping; it is not answered with status 200, and no stream is opened. *)
Theorem dl_empty_file (req : Request) (link : string) (file : FileAttributes) :
  query req !! "link" = Some link ->
  isAllowedMegaLink newURL link = true ->
  loadAttributes link = Ok file ->
  Number stringToNumber (size file) = Int 0 \/ size file = SizeUndefined
  \/ Number stringToNumber (size file) = NaN ->
  let res := dl newURL stringToNumber loadAttributes req in
  statusCode res = 400
  /\ body res = Some (Sent "File appears to be empty or invalid.")
  /\ (forall err res', body (mapError err res') <> body res)
  /\ statusCode res <> 200
  /\ (forall range, body res <> Some (Piped range)).
Proof using newURL_empty.
  intros Hq Hv Hl Hsize res. subst res.
  rewrite (dl_resolved req link file Hq Hv Hl).
  rewrite respond_empty.
  - repeat apply conj; try reflexivity; try discriminate.
    intros err res'. unfold mapError. case_signals err; discriminate.
  - destruct Hsize as [H | [H | H]]; [right | left | left];
      try assumption. now rewrite H.
Qed.

(** C4. Whatever the header, a window that the parser returns for a
    positive [size] lies inside the file, [0 <= start <= end <= size - 1];
    and whenever the handler opens the provider stream on a window, that
    window came from the parser and lies inside the resolved size. *)
Theorem download_window_in_bounds :
  (forall h size r,
     0 < size -> parseRange h size = Some r ->
     0 <= start r /\ start r <= end_ r /\ end_ r <= size - 1)
  /\ (forall req r,
        body (dl newURL stringToNumber loadAttributes req) = Some (Piped (Some r)) ->
        exists link file fileSize,
          query req !! "link" = Some link
          /\ loadAttributes link = Ok file
          /\ Number stringToNumber (size file) = Int fileSize
          /\ parseRange (headers req !! "range") fileSize = Some r
          /\ 0 <= start r /\ start r <= end_ r /\ end_ r <= fileSize - 1).
Proof using Type.
  split.
  - intros h size r _ H. apply parseRange_bounds in H. lia.
  - intros req r. unfold dl.
    destruct (query req !! "link") as [link|] eqn:Hq; [| discriminate].
    destruct (negb (truthy link)); [discriminate |].
    destruct (negb (isAllowedMegaLink newURL link)); [discriminate |].
    destruct (loadAttributes link) as [file | err] eqn:Hl.
    + intros H. apply respond_piped_range in H as (fileSize & Hn & Hr).
      exists link, file, fileSize. pose proof (parseRange_bounds _ _ _ Hr).
      repeat split; tauto || lia.
    + destruct (mapError_sends err res0) as [text ->]. discriminate.
Qed.

End HandlerFacts.

(** *** The handler on sample requests *)

Lemma dl_partial_content_witness :
  statusCode (dl sampleURL sampleStringToNumber (sampleProvider (SizeNumber (Int 1000)))
                 (sampleRequest (Some "bytes=0-99"))) = 206
  /\ resHeaders (dl sampleURL sampleStringToNumber (sampleProvider (SizeNumber (Int 1000)))
                    (sampleRequest (Some "bytes=0-99"))) !! "Content-Range"
     = Some "bytes 0-99/1000"
  /\ resHeaders (dl sampleURL sampleStringToNumber (sampleProvider (SizeNumber (Int 1000)))
                    (sampleRequest (Some "bytes=0-99"))) !! "Content-Length"
     = Some "100"
  /\ resHeaders (dl sampleURL sampleStringToNumber (sampleProvider (SizeNumber (Int 1000)))
                    (sampleRequest (Some "bytes=0-99"))) !! "Content-Type"
     = Some "application/octet-stream".
Proof.
  apply (dl_partial_content sampleURL sampleStringToNumber
           (sampleProvider (SizeNumber (Int 1000))) eq_refl
           (sampleRequest (Some "bytes=0-99")) sampleLink
           {| name := Some "a.bin"; size := SizeNumber (Int 1000) |} 1000);
    reflexivity || lia.
Defined.

Lemma dl_full_content_witness :
  isFullResponse
    (dl sampleURL sampleStringToNumber (sampleProvider (SizeNumber (Int 1000)))
        (sampleRequest (Some "bytes=500-100")))
    1000
  /\ isFullResponse
       (dl sampleURL sampleStringToNumber (sampleProvider (SizeNumber (Int 1000)))
           (sampleRequest None))
       1000.
Proof.
  split.
  - destruct (dl_full_content sampleURL sampleStringToNumber
                (sampleProvider (SizeNumber (Int 1000))) eq_refl
                (sampleRequest (Some "bytes=500-100")) sampleLink
                {| name := Some "a.bin"; size := SizeNumber (Int 1000) |} 1000)
      as (_ & _ & _ & _ & H); [reflexivity | reflexivity | reflexivity | reflexivity | lia |].
    apply H. reflexivity.
  - destruct (dl_full_content sampleURL sampleStringToNumber
                (sampleProvider (SizeNumber (Int 1000))) eq_refl
                (sampleRequest None) sampleLink
                {| name := Some "a.bin"; size := SizeNumber (Int 1000) |} 1000)
      as (H & _); [reflexivity | reflexivity | reflexivity | reflexivity | lia |].
    apply H. reflexivity.
Defined.

Lemma dl_empty_file_witness :
  statusCode (dl sampleURL sampleStringToNumber (sampleProvider (SizeNumber (Int 0)))
                 (sampleRequest None)) = 400
  /\ body (dl sampleURL sampleStringToNumber (sampleProvider SizeUndefined)
              (sampleRequest (Some "bytes=0-99")))
     = Some (Sent "File appears to be empty or invalid.").
Proof.
  split.
  - apply (dl_empty_file sampleURL sampleStringToNumber
             (sampleProvider (SizeNumber (Int 0))) eq_refl
             (sampleRequest None) sampleLink
             {| name := Some "a.bin"; size := SizeNumber (Int 0) |});
      try reflexivity. left. reflexivity.
  - apply (dl_empty_file sampleURL sampleStringToNumber
             (sampleProvider SizeUndefined) eq_refl
             (sampleRequest (Some "bytes=0-99")) sampleLink
             {| name := Some "a.bin"; size := SizeUndefined |});
      try reflexivity. right. left. reflexivity.
Defined.

Lemma download_window_in_bounds_witness :
  parseRange (Some "bytes=2-5") 10 = Some {| start := 2; end_ := 5 |}
  /\ 0 <= 2 /\ 2 <= 5 /\ 5 <= 10 - 1.
Proof.
  split; [reflexivity |].
  apply (proj1 (download_window_in_bounds sampleURL sampleStringToNumber
                  (sampleProvider (SizeNumber (Int 10))))
           (Some "bytes=2-5") 10 {| start := 2; end_ := 5 |});
    [lia | reflexivity].
Defined.

(** * Further properties *)

(** ** The range parser *)

Lemma parseRange_pieces (x : string) (size : Z) :
  parseRange (Some ("bytes=" ++ x)) size
  = windowOfPieces (split "-" x !! 0%nat) (split "-" x !! 1%nat) size.
Proof. reflexivity. Qed.

Lemma split_cons (t : string) : exists p ps, split "-" t = p :: ps.
Proof.
  induction t as [|c t (p & ps & IH)]; simpl; [now exists "", [] |].
  destruct (Ascii.eqb c "-"); [now exists "", (split "-" t) |].
  rewrite IH. now exists (String c p), ps.
Qed.

Lemma split_app (e t p : string) (ps : list string) :
  noDash e = true -> split "-" t = p :: ps -> split "-" (e ++ t) = (e ++ p) :: ps.
Proof.
  intros He Ht. induction e as [|c e IH]; simpl in *; [assumption |].
  apply andb_prop in He as [Hc He]. apply negb_true_iff in Hc.
  rewrite Hc, (IH He). reflexivity.
Qed.

Lemma split_head_nondigit (t p : string) (ps : list string) :
  startsWithDigit t = false -> split "-" t = p :: ps -> startsWithDigit p = false.
Proof.
  destruct t as [|c t]; simpl.
  - intros _ [= <- _]. reflexivity.
  - intros Hc. destruct (Ascii.eqb c "-").
    + intros [= <- _]. reflexivity.
    + destruct (split_cons t) as (q & qs & ->). intros [= <- _]. exact Hc.
Qed.

Lemma parseDigits_app (e p : string) (a : Z) :
  allDigits e = true -> startsWithDigit p = false ->
  parseDigits a (e ++ p) = parseDigits a e.
Proof.
  intros He Hp. revert a. induction e as [|c e IH]; intros a; simpl in *.
  - destruct p as [|c p]; [reflexivity |]. simpl in *.
    destruct (digitVal c); [discriminate | reflexivity].
  - destruct (digitVal c); [apply (IH He) | discriminate].
Qed.

Lemma parseInt_app (e p : string) :
  allDigits e = true -> e <> "" -> startsWithDigit p = false ->
  parseInt (e ++ p) = parseInt e.
Proof.
  intros He Hne Hp. destruct e as [|c e]; [congruence |].
  pose proof He as Hc. simpl in Hc. destruct (digitVal c) as [d|] eqn:Hd; [| discriminate].
  change (String c e ++ p) with (String c (e ++ p)).
  rewrite !(parseInt_digit_head c d) by assumption.
  f_equal. apply (parseDigits_app (String c e) p 0 He Hp).
Qed.

(** X1. Reading back what the handler prints: a window inside the file,
    written [bytes=start-end] with the numbers as [String] prints them,
    parses to that window. *)
Theorem parseRange_round_trip (size a b : Z) :
  0 <= a -> a <= b -> b <= size - 1 ->
  parseRange (Some ("bytes=" ++ toString a ++ "-" ++ toString b)) size
  = Some {| start := a; end_ := b |}.
Proof.
  intros Ha Hab Hb.
  rewrite parseRange_dash by (apply allDigits_noDash, toString_allDigits; lia).
  unfold defaultStart, clampEnd. rewrite !parseInt_toString by lia.
  destruct (Z.ltb_spec b size); [| lia].
  destruct (Z.gtb_spec a b), (Z.ltb_spec a 0); lia || reflexivity.
Qed.

Lemma parseRange_round_trip_witness :
  parseRange (Some ("bytes=" ++ toString 17 ++ "-" ++ toString 254)) 255
  = Some {| start := 17; end_ := 254 |}.
Proof. apply parseRange_round_trip; lia. Defined.

(** X2. For a size that is zero or negative the parser returns no window,
    whatever the header. *)
Theorem parseRange_nonpositive_size (h : option string) (size : Z) :
  size <= 0 -> parseRange h size = None.
Proof.
  intros Hsize. destruct (parseRange h size) as [r|] eqn:E; [| reflexivity].
  apply parseRange_bounds in E. lia.
Qed.

Lemma parseRange_nonpositive_size_witness :
  parseRange (Some "bytes=0-0") 0 = None.
Proof. apply parseRange_nonpositive_size. lia. Defined.

(** X3. A start at or past the end of the file gives no window: with or
    without a dash after it, and whatever follows the dash. *)
Theorem parseRange_start_past_file (s y : string) (size a : Z) :
  noDash s = true -> parseInt s = Int a -> size <= a ->
  parseRange (Some ("bytes=" ++ s)) size = None
  /\ parseRange (Some ("bytes=" ++ s ++ "-" ++ y)) size = None.
Proof.
  intros Hs Ha Hsize. split.
  - rewrite parseRange_no_dash by assumption. unfold defaultStart. rewrite Ha.
    destruct (Z.gtb_spec a (size - 1)); [reflexivity | lia].
  - destruct (parseRange (Some ("bytes=" ++ s ++ "-" ++ y)) size) as [r|] eqn:E;
      [| reflexivity].
    pose proof (parseRange_bounds _ _ _ E) as Hb.
    rewrite parseRange_pieces in E.
    change (s ++ "-" ++ y) with (s ++ String "-" y) in E.
    rewrite (split_dash s y Hs) in E. cbn [lookup list_lookup] in E.
    unfold windowOfPieces in E.
    assert (match (if truthy s then parseInt s else Int 0) with
            | NaN => 0 | Int z => z end = a) as Hstart.
    { destruct s; [discriminate Ha | cbn [truthy]; now rewrite Ha]. }
    rewrite Hstart in E.
    match type of E with
    | (if ?c then _ else _) = _ => destruct c; [discriminate |]
    end.
    injection E as <-. cbn [start end_] in Hb. lia.
Qed.

Lemma parseRange_start_past_file_witness :
  parseRange (Some ("bytes=" ++ "1000")) 1000 = None
  /\ parseRange (Some ("bytes=" ++ "1000" ++ "-" ++ "1500-x")) 1000 = None.
Proof. apply (parseRange_start_past_file "1000" "1500-x" 1000 1000); reflexivity || lia. Defined.

(** X4. Only the first range counts: after the digits of the end, anything
    that does not begin with a digit (a comma and more ranges, another
    dash, any text) leaves the window as it is without it. *)
Theorem parseRange_first_range_only (s e t : string) (size : Z) :
  noDash s = true -> allDigits e = true -> e <> "" -> startsWithDigit t = false ->
  parseRange (Some ("bytes=" ++ s ++ "-" ++ e ++ t)) size
  = parseRange (Some ("bytes=" ++ s ++ "-" ++ e)) size.
Proof.
  intros Hs He Hne Ht. rewrite !parseRange_pieces.
  change (s ++ "-" ++ e ++ t) with (s ++ String "-" (e ++ t)).
  change (s ++ "-" ++ e) with (s ++ String "-" e).
  rewrite !(split_dash s) by assumption.
  destruct (split_cons t) as (p & ps & Hsplit).
  pose proof (allDigits_noDash e He) as Hd.
  rewrite (split_app e t p ps Hd Hsplit), (split_noDash e Hd).
  cbn [lookup list_lookup]. unfold windowOfPieces.
  rewrite (parseInt_app e p He Hne (split_head_nondigit t p ps Ht Hsplit)).
  destruct e as [|c e]; [congruence | reflexivity].
Qed.

Lemma parseRange_first_range_only_witness :
  parseRange (Some ("bytes=" ++ "5" ++ "-" ++ "20" ++ ",30-40,50-60")) 100
  = parseRange (Some ("bytes=" ++ "5" ++ "-" ++ "20")) 100.
Proof.
  apply parseRange_first_range_only; [reflexivity | reflexivity | discriminate | reflexivity].
Defined.

(** ** The error mapping *)

Lemma mapError_headers (err : Error) (res : Res) :
  resHeaders (mapError err res) = resHeaders res.
Proof. unfold mapError. case_signals err. Qed.

Lemma mapError_status_in (err : Error) (res : Res) :
  In (statusCode (mapError err res)) errorStatuses.
Proof. unfold mapError, errorStatuses. case_signals err; simpl; tauto. Qed.

(** X5. Apart from status 500, the text of an error response depends on
    the status alone: two errors mapped to the same status other than 500
    send the same text, so nothing of the provider's message reaches the
    client there. *)
Theorem mapError_text_by_status (err1 err2 : Error) (res1 res2 : Res) :
  statusCode (mapError err1 res1) = statusCode (mapError err2 res2) ->
  statusCode (mapError err1 res1) <> 500 ->
  body (mapError err1 res1) = body (mapError err2 res2).
Proof.
  unfold mapError.
  case_signals err1; case_signals err2; intros H1 H2;
    reflexivity || discriminate || contradiction.
Qed.

Lemma mapError_text_by_status_witness :
  body (mapError {| message := Some "ENOENT: no such file"; code := None |} res0)
  = body (mapError {| message := None; code := Some (-9) |} res0).
Proof. apply mapError_text_by_status; [reflexivity | discriminate]. Defined.

(** X6. An error without a message is mapped by its code alone: -9 to 404,
    -11 to 403, -8 to 410, -17 to 429, -18 to 503, and every other code, or
    none, to 500 with the text [Unknown error]. *)
Theorem mapError_code_only (err : Error) (res : Res) :
  message err = None ->
  statusCode (mapError err res)
  = match code err with
    | Some (-9) => 404
    | Some (-11) => 403
    | Some (-8) => 410
    | Some (-17) => 429
    | Some (-18) => 503
    | _ => 500
    end
  /\ (statusCode (mapError err res) = 500 ->
      body (mapError err res) = Some (Sent "Failed to fetch from MEGA: Unknown error")).
Proof.
  intros Hm. unfold mapError, messageIncludes, messageOr, codeIs. rewrite Hm.
  cbn [orb]. destruct (code err) as [k|]; [| split; reflexivity].
  destruct (Z.eqb_spec k (-9)) as [-> | H9]; [split; [reflexivity | discriminate] |].
  destruct (Z.eqb_spec k (-11)) as [-> | H11]; [split; [reflexivity | discriminate] |].
  destruct (Z.eqb_spec k (-8)) as [-> | H8]; [split; [reflexivity | discriminate] |].
  destruct (Z.eqb_spec k (-17)) as [-> | H17]; [split; [reflexivity | discriminate] |].
  destruct (Z.eqb_spec k (-18)) as [-> | H18]; [split; [reflexivity | discriminate] |].
  split; [| reflexivity]. cbn [statusCode status send].
  destruct k as [|k|k]; try reflexivity.
  repeat (match goal with
          | |- context [match ?p with xI _ => _ | xO _ => _ | xH => _ end] =>
              destruct p
          end; try reflexivity; try congruence).
Qed.

Lemma mapError_code_only_witness :
  statusCode (mapError {| message := None; code := Some (-17) |} res0) = 429
  /\ statusCode (mapError {| message := None; code := Some 7 |} res0) = 500.
Proof.
  split.
  - apply (proj1 (mapError_code_only {| message := None; code := Some (-17) |} res0 eq_refl)).
  - apply (proj1 (mapError_code_only {| message := None; code := Some 7 |} res0 eq_refl)).
Defined.

(** X7. Status 400 comes from the message only: the mapping answers 400
    exactly for an error whose message holds [EKEY] or [decryption] and that
    matches none of the four rows before; no code leads to it. *)
Theorem mapError_bad_key (err : Error) (res : Res) :
  statusCode (mapError err res) = 400 <->
  (messageIncludes err "EKEY" = true \/ messageIncludes err "decryption" = true)
  /\ matches err NotFound = false /\ matches err AccessDenied = false
  /\ matches err Expired = false /\ matches err QuotaExceeded = false.
Proof.
  unfold mapError, matches. cbn [signals fst snd existsb].
  rewrite !orb_false_r.
  destruct (messageIncludes err "ENOENT" || codeIs err (-9));
    [split; [discriminate | intros (_ & [=] & _)] |].
  destruct (messageIncludes err "EACCESS" || codeIs err (-11));
    [split; [discriminate | intros (_ & _ & [=] & _)] |].
  destruct (messageIncludes err "EEXPIRED" || codeIs err (-8));
    [split; [discriminate | intros (_ & _ & _ & [=] & _)] |].
  destruct (messageIncludes err "EOVERQUOTA" || codeIs err (-17));
    [split; [discriminate | intros (_ & _ & _ & _ & [=])] |].
  destruct (messageIncludes err "EKEY"); [cbn; tauto |].
  destruct (messageIncludes err "decryption"); [cbn; tauto |].
  cbn [orb]. split; [| intros ([[=] | [=]] & _)].
  destruct (messageIncludes err "ETEMPUNAVAIL" || codeIs err (-18)); discriminate.
Qed.

Lemma mapError_bad_key_witness :
  statusCode (mapError {| message := Some "EKEY: bad key"; code := Some (-18) |} res0) = 400.
Proof.
  apply (proj2 (mapError_bad_key {| message := Some "EKEY: bad key"; code := Some (-18) |}
                  res0)).
  repeat split; try reflexivity. left. reflexivity.
Defined.

(** ** The [/dl] handler *)

Lemma encodeURIComponent_allEncoded (s : string) :
  allEncoded (encodeURIComponent s) = true.
Proof.
  induction s as [|c s IH]; [reflexivity |].
  cbn [encodeURIComponent]. destruct (isUnreserved c) eqn:E.
  - cbn [allEncoded]. unfold isEncoded. now rewrite E, IH.
  - cbn [allEncoded]. rewrite IH, andb_true_r.
    clear IH. destruct c as [[] [] [] [] [] [] [] []]; try discriminate E; reflexivity.
Qed.

Lemma allEncoded_excludes (s : string) (c : ascii) :
  allEncoded s = true -> isEncoded c = false -> includes s (String c "") = false.
Proof.
  intros Hs Hc. induction s as [|a s IH]; [reflexivity |].
  cbn [allEncoded] in Hs. apply andb_prop in Hs as [Ha Hs].
  cbn [includes startsWith]. rewrite (IH Hs), orb_false_r.
  destruct (Ascii.eqb_spec c a) as [-> |]; [congruence | reflexivity].
Qed.

Section HandlerMore.

Variable newURL : string -> option URL.
Variable stringToNumber : string -> number.
Variable loadAttributes : string -> Result FileAttributes.

(** The handler reaches the metadata only through a link that validates and
    resolves. *)
Lemma dl_streams_inv (req : Request) (range : option ByteRange) :
  body (dl newURL stringToNumber loadAttributes req) = Some (Piped range) ->
  exists link file,
    query req !! "link" = Some link
    /\ isAllowedMegaLink newURL link = true
    /\ loadAttributes link = Ok file
    /\ dl newURL stringToNumber loadAttributes req = respond stringToNumber req file res0.
Proof.
  unfold dl. destruct (query req !! "link") as [link|]; [| discriminate].
  destruct (negb (truthy link)); [discriminate |].
  destruct (isAllowedMegaLink newURL link) eqn:Hv; [| discriminate]. cbn [negb].
  destruct (loadAttributes link) as [file | err] eqn:Hl.
  - intros _. now exists link, file.
  - destruct (mapError_sends err res0) as [text ->]. discriminate.
Qed.

Lemma dl_streams_link (req : Request) (range : option ByteRange) (link : string) :
  body (dl newURL stringToNumber loadAttributes req) = Some (Piped range) ->
  query req !! "link" = Some link -> truthy link = true.
Proof.
  unfold dl. intros H Hq. rewrite Hq in H.
  destruct (truthy link); [reflexivity | discriminate].
Qed.

Lemma respond_streams_inv (req : Request) (file : FileAttributes)
      (range : option ByteRange) :
  body (respond stringToNumber req file res0) = Some (Piped range) ->
  exists fileSize,
    Number stringToNumber (size file) = Int fileSize
    /\ fileSize <> 0
    /\ parseRange (headers req !! "range") fileSize = range.
Proof.
  unfold respond. destruct (Number stringToNumber (size file)) as [|fileSize]; [discriminate |].
  destruct (Z.eqb_spec fileSize 0) as [| Hne]; [discriminate |].
  destruct (parseRange (headers req !! "range") fileSize) as [r|] eqn:E;
    cbn [body pipe]; intros [= <-]; exists fileSize; auto.
Qed.

(** X8. The provider is asked only about links that pass the validator: two
    providers that answer alike on every non-empty link that validates give
    the same response to every request. *)
Theorem dl_provider_scope (provider1 provider2 : string -> Result FileAttributes)
        (req : Request) :
  (forall link, link <> "" -> isAllowedMegaLink newURL link = true ->
                provider1 link = provider2 link) ->
  dl newURL stringToNumber provider1 req = dl newURL stringToNumber provider2 req.
Proof using Type.
  intros Hsame. unfold dl. destruct (query req !! "link") as [link|]; [| reflexivity].
  destruct link as [|c link]; [reflexivity |]. cbn [truthy negb].
  destruct (isAllowedMegaLink newURL (String c link)) eqn:Hv; [| reflexivity].
  cbn [negb]. now rewrite (Hsame (String c link)).
Qed.

(** X9. The two texts of a rejected request tell which check failed: the
    text about the missing parameter is sent exactly when [link] is absent
    or empty, and the text about unsupported links exactly when [link] is
    there, not empty, and does not validate. *)
Theorem dl_rejection_texts (req : Request) :
  (body (dl newURL stringToNumber loadAttributes req)
   = Some (Sent "Missing ?link=<MEGA_PUBLIC_FILE_URL>")
   <-> query req !! "link" = None \/ query req !! "link" = Some "")
  /\ (body (dl newURL stringToNumber loadAttributes req)
      = Some (Sent "Only public MEGA FILE links are supported.")
      <-> exists link, query req !! "link" = Some link /\ link <> ""
                       /\ isAllowedMegaLink newURL link = false).
Proof using Type.
  assert (forall file text,
             text = "Missing ?link=<MEGA_PUBLIC_FILE_URL>"
             \/ text = "Only public MEGA FILE links are supported." ->
             body (respond stringToNumber req file res0) <> Some (Sent text)) as Hrespond.
  { intros file text Ht. unfold respond.
    destruct (Number stringToNumber (size file)) as [|n];
      [destruct Ht as [-> | ->]; discriminate |].
    destruct (n =? 0); [destruct Ht as [-> | ->]; discriminate |].
    destruct (parseRange (headers req !! "range") n); discriminate. }
  assert (forall err text,
             text = "Missing ?link=<MEGA_PUBLIC_FILE_URL>"
             \/ text = "Only public MEGA FILE links are supported." ->
             body (mapError err res0) <> Some (Sent text)) as Herror.
  { intros err text Ht. unfold mapError.
    case_signals err; destruct Ht as [-> | ->]; discriminate. }
  unfold dl. destruct (query req !! "link") as [link|].
  - destruct link as [|c link]; cbn [truthy negb].
    + split; split; try discriminate; try tauto.
      intros (l & [= <-] & Hne & _). congruence.
    + destruct (isAllowedMegaLink newURL (String c link)) eqn:Hv; cbn [negb].
      * destruct (loadAttributes (String c link)) as [file | err].
        -- split; split;
             try (intros H; exfalso; revert H; apply Hrespond; tauto).
           ++ intros [[=] | [=]].
           ++ intros (l & [= <-] & _ & H). congruence.
        -- split; split;
             try (intros H; exfalso; revert H; apply Herror; tauto).
           ++ intros [[=] | [=]].
           ++ intros (l & [= <-] & _ & H). congruence.
      * split; split; try discriminate.
        -- intros [[=] | [=]].
        -- intros _. exists (String c link). repeat split; congruence.
        -- reflexivity.
  - split; split; try discriminate; try tauto.
    intros (l & [=] & _).
Qed.

(** X10. Every request is answered, in one of three shapes and never a mix:
    a text with one of the statuses 400, 403, 404, 410, 429, 500, 503 and
    no header set; the whole file with status 200; or a window of the file
    with status 206. *)
Theorem dl_response_shape (req : Request) :
  (exists text,
     body (dl newURL stringToNumber loadAttributes req) = Some (Sent text)
     /\ resHeaders (dl newURL stringToNumber loadAttributes req) = ∅
     /\ In (statusCode (dl newURL stringToNumber loadAttributes req)) errorStatuses)
  \/ (body (dl newURL stringToNumber loadAttributes req) = Some (Piped None)
      /\ statusCode (dl newURL stringToNumber loadAttributes req) = 200)
  \/ (exists r,
        body (dl newURL stringToNumber loadAttributes req) = Some (Piped (Some r))
        /\ statusCode (dl newURL stringToNumber loadAttributes req) = 206).
Proof using Type.
  assert (forall text,
             exists text',
               body (res0 |> status 400 |> send text) = Some (Sent text')
               /\ resHeaders (res0 |> status 400 |> send text) = ∅
               /\ In (statusCode (res0 |> status 400 |> send text)) errorStatuses)
    as Hreject.
  { intros text. exists text. repeat split. simpl. tauto. }
  unfold dl. destruct (query req !! "link") as [link|]; [| left; apply Hreject].
  destruct (negb (truthy link)); [left; apply Hreject |].
  destruct (negb (isAllowedMegaLink newURL link)); [left; apply Hreject |].
  destruct (loadAttributes link) as [file | err].
  - unfold respond. destruct (Number stringToNumber (size file)) as [|n];
      [left; apply Hreject |].
    destruct (n =? 0); [left; apply Hreject |].
    destruct (parseRange (headers req !! "range") n) as [r|].
    + right. right. exists r. split; reflexivity.
    + right. left. split; reflexivity.
  - left. destruct (mapError_sends err res0) as [text Ht]. exists text.
    split; [assumption |]. split; [apply mapError_headers | apply mapError_status_in].
Qed.

End HandlerMore.

Section HandlerStreams.

Variable newURL : string -> option URL.
Variable stringToNumber : string -> number.
Variable loadAttributes : string -> Result FileAttributes.

(** X11. A response that streams the file, whole or in part, carries
    [Accept-Ranges: bytes], [Cache-Control: no-store] and [Content-Type:
    application/octet-stream]; its headers are these three,
    [Content-Disposition] and [Content-Length], with [Content-Range] for a
    window and only then. *)
Theorem dl_stream_headers (req : Request) (range : option ByteRange) :
  body (dl newURL stringToNumber loadAttributes req) = Some (Piped range) ->
  resHeaders (dl newURL stringToNumber loadAttributes req) !! "Accept-Ranges"
  = Some "bytes"
  /\ resHeaders (dl newURL stringToNumber loadAttributes req) !! "Cache-Control"
     = Some "no-store"
  /\ resHeaders (dl newURL stringToNumber loadAttributes req) !! "Content-Type"
     = Some "application/octet-stream"
  /\ dom (resHeaders (dl newURL stringToNumber loadAttributes req))
     = {[ "Content-Disposition"; "Accept-Ranges"; "Cache-Control"; "Content-Type";
          "Content-Length" ]}
       ∪ (match range with Some _ => {[ "Content-Range" ]} | None => ∅ end : gset string).
Proof using Type.
  intros H. destruct (dl_streams_inv _ _ _ _ _ H) as (link & file & _ & _ & _ & E).
  rewrite E in *. clear E. revert H. unfold respond.
  destruct (Number stringToNumber (size file)) as [|n]; [discriminate |].
  destruct (n =? 0); [discriminate |].
  destruct (parseRange (headers req !! "range") n) as [r|];
    cbn [statusCode resHeaders body status setHeader pipe]; intros [= <-];
    (split; [| split; [| split]]);
    try (by simplify_map_eq);
    rewrite !dom_insert_L, dom_empty_L; set_solver.
Qed.

(** X12. The file name reaches the client only through
    [encodeURIComponent]: the [Content-Disposition] of a streamed response
    is [attachment; filename*=UTF-8''] followed by the encoded name of the
    file, or of [download.bin] when the file has no name or an empty one,
    and the encoded part holds only letters, digits, [- _ . ! ~ * ' ( )]
    and [%], so no line break, space, semicolon or double quote. *)
Theorem dl_content_disposition (req : Request) (range : option ByteRange) :
  body (dl newURL stringToNumber loadAttributes req) = Some (Piped range) ->
  exists link file enc,
    query req !! "link" = Some link
    /\ loadAttributes link = Ok file
    /\ enc = encodeURIComponent
               (match name file with
                | Some (String c n) => String c n
                | _ => "download.bin"
                end)
    /\ resHeaders (dl newURL stringToNumber loadAttributes req) !! "Content-Disposition"
       = Some ("attachment; filename*=UTF-8''" ++ enc)
    /\ allEncoded enc = true
    /\ (forall c, In (charCode c) [10; 13; 32; 34; 59] ->
                  includes enc (String c "") = false).
Proof using Type.
  intros H. destruct (dl_streams_inv _ _ _ _ _ H) as (link & file & Hq & _ & Hl & E).
  exists link, file. eexists. split; [exact Hq |]. split; [exact Hl |].
  split; [reflexivity |]. split; [| split].
  - rewrite E in *. clear E. revert H. unfold respond.
    destruct (Number stringToNumber (size file)) as [|n]; [discriminate |].
    destruct (n =? 0); [discriminate |].
    assert ((match name file with
             | Some n0 => if truthy n0 then n0 else "download.bin"
             | None => "download.bin"
             end)
            = match name file with
              | Some (String c n0) => String c n0
              | _ => "download.bin"
              end) as ->.
    { destruct (name file) as [[|c n0]|]; reflexivity. }
    destruct (parseRange (headers req !! "range") n) as [r|];
      cbn [statusCode resHeaders body status setHeader pipe]; intros _;
      by simplify_map_eq.
  - apply encodeURIComponent_allEncoded.
  - intros c Hc. apply allEncoded_excludes; [apply encodeURIComponent_allEncoded |].
    unfold isEncoded, isUnreserved.
    assert (Ascii.eqb c "%" = false) as ->.
    { destruct (Ascii.eqb_spec c "%") as [-> |]; [| reflexivity].
      simpl in Hc. intuition discriminate. }
    simpl in Hc. destruct Hc as [<- | [<- | [<- | [<- | [<- | []]]]]]; reflexivity.
Qed.

(** X13. Asking again for the window that was served gives the same
    response: when a request is answered with a window, the same request
    with the header [Range: bytes=start-end] of that window is answered
    alike. *)
Theorem dl_resume (req : Request) (r : ByteRange) :
  body (dl newURL stringToNumber loadAttributes req) = Some (Piped (Some r)) ->
  dl newURL stringToNumber loadAttributes
     (withRange ("bytes=" ++ toString (start r) ++ "-" ++ toString (end_ r)) req)
  = dl newURL stringToNumber loadAttributes req.
Proof using Type.
  intros H. destruct (dl_streams_inv _ _ _ _ _ H) as (link & file & Hq & Hv & Hl & E).
  pose proof (dl_streams_link _ _ _ _ _ _ H Hq) as Ht.
  rewrite E in H. apply respond_streams_inv in H as (n & Hn & Hne & Hr).
  rewrite E. unfold dl. cbn [withRange query]. rewrite Hq, Ht, Hv, Hl. cbn [negb].
  - unfold respond. rewrite Hn. destruct (Z.eqb_spec n 0); [contradiction |].
    cbn [withRange headers]. rewrite lookup_insert_eq, Hr.
    pose proof (parseRange_bounds _ _ _ Hr) as Hb.
    rewrite parseRange_dash by (apply allDigits_noDash, toString_allDigits; lia).
    unfold defaultStart, clampEnd. rewrite !parseInt_toString by lia.
    destruct (Z.ltb_spec (end_ r) n); [| lia].
    destruct (Z.gtb_spec (start r) (end_ r)), (Z.ltb_spec (start r) 0); try lia.
    destruct r; reflexivity.
Qed.

(** X14. The [Content-Length] of a window is its number of bytes, printed
    so that it reads back as that number: at least 1, at most the size of
    the file, and the size itself only for the window that is the whole
    file. *)
Theorem dl_chunk_length (req : Request) (r : ByteRange) :
  body (dl newURL stringToNumber loadAttributes req) = Some (Piped (Some r)) ->
  exists link file fileSize chunkSize,
    query req !! "link" = Some link
    /\ loadAttributes link = Ok file
    /\ Number stringToNumber (size file) = Int fileSize
    /\ chunkSize = end_ r - start r + 1
    /\ resHeaders (dl newURL stringToNumber loadAttributes req) !! "Content-Length"
       = Some (toString chunkSize)
    /\ parseInt (toString chunkSize) = Int chunkSize
    /\ 1 <= chunkSize <= fileSize
    /\ (chunkSize = fileSize <-> start r = 0 /\ end_ r = fileSize - 1).
Proof using Type.
  intros H. destruct (dl_streams_inv _ _ _ _ _ H) as (link & file & Hq & Hv & Hl & E).
  rewrite E in *. apply respond_streams_inv in H as (n & Hn & Hne & Hr).
  pose proof (parseRange_bounds _ _ _ Hr) as Hb.
  exists link, file, n, (end_ r - start r + 1).
  split; [exact Hq |]. split; [exact Hl |]. split; [exact Hn |]. split; [reflexivity |].
  split; [| split; [apply parseInt_toString; lia | split; lia]].
  unfold respond. rewrite Hn. destruct (Z.eqb_spec n 0); [contradiction |].
  rewrite Hr. cbn [statusCode resHeaders body status setHeader pipe].
  by simplify_map_eq.
Qed.

(** X15. The guard on the size lets a negative size through, and the range
    is then never honoured: a validated link whose metadata has a negative
    size is answered with status 200 and that size as [Content-Length],
    whatever the [Range] header. *)
Theorem dl_negative_size (req : Request) (link : string) (file : FileAttributes)
        (fileSize : Z) :
  newURL "" = None ->
  query req !! "link" = Some link ->
  isAllowedMegaLink newURL link = true ->
  loadAttributes link = Ok file ->
  Number stringToNumber (size file) = Int fileSize ->
  fileSize < 0 ->
  isFullResponse (dl newURL stringToNumber loadAttributes req) fileSize.
Proof using Type.
  intros Hempty Hq Hv Hl Hn Hneg.
  rewrite (dl_resolved newURL stringToNumber loadAttributes Hempty req link file Hq Hv Hl).
  apply respond_full; [assumption | lia |].
  destruct (parseRange (headers req !! "range") fileSize) as [r|] eqn:E; [| reflexivity].
  apply parseRange_bounds in E. lia.
Qed.

End HandlerStreams.

(** ** The earlier server *)

(** On an integer size the parser read on numbers is the parser read on
    integers. *)
Lemma parseRangeNum_Int (h : option string) (size : Z) :
  parseRangeNum h (Int size)
  = option_map (fun r => {| nstart := Int (start r); nend := Int (end_ r) |})
               (parseRange h size).
Proof.
  unfold parseRangeNum, parseRange. destruct h as [h|]; [| reflexivity].
  destruct (negb (truthy h) || negb (startsWith h "bytes=")); [reflexivity |].
  cbv zeta.
  generalize (split "-" (replace "bytes=" "" h) !! 0%nat) as startStr.
  generalize (split "-" (replace "bytes=" "" h) !! 1%nat) as endStr.
  intros endStr startStr.
  assert (forall a b : Z,
             (if JsNumber.gt (Int a) (Int b) || JsNumber.lt (Int a) (Int 0) then None
              else Some {| nstart := Int a; nend := Int b |})
             = option_map (fun r => {| nstart := Int (start r); nend := Int (end_ r) |})
                 (if (a >? b) || (a <? 0) then None
                  else Some {| start := a; end_ := b |})) as Hfinal.
  { intros a b. cbn [JsNumber.gt JsNumber.lt].
    destruct ((a >? b) || (a <? 0)); reflexivity. }
  destruct startStr as [s|]; [destruct (truthy s); [destruct (parseInt s) as [|a] |] |];
    (destruct endStr as [e|]; [destruct (truthy e); [destruct (parseInt e) as [|b] |] |]);
    cbn [JsNumber.isNaN JsNumber.ge JsNumber.sub orb];
    try (destruct (b >=? size)); try (destruct (size - 1 >=? size));
    apply Hfinal.
Qed.

Lemma isAllowedMegaLink_legacy_of_current (newURL : string -> option URL) (str : string) :
  isAllowedMegaLink newURL str = true -> isAllowedMegaLink_legacy newURL str = true.
Proof.
  unfold isAllowedMegaLink, isAllowedMegaLink_legacy.
  destruct (newURL str) as [u|]; [| discriminate].
  destruct (arrayIncludes allowedHosts (hostname u)); [| discriminate].
  rewrite !andb_true_l.
  destruct (startsWith (pathname u) "/file/"); [reflexivity |].
  destruct (startsWith (pathname u) "/#!"); [reflexivity |].
  rewrite orb_false_r, !orb_false_l. intros H. apply andb_prop in H as [H _].
  apply String.eqb_eq in H. now rewrite H.
Qed.

(** X16. The earlier validator accepts a link exactly when it parses, its
    host is one of the four, and its path does not begin with [/f/] or
    begins with [/file/]; the test for [/#!] adds nothing. *)
Theorem isAllowedMegaLink_legacy_correct (newURL : string -> option URL) (str : string) :
  isAllowedMegaLink_legacy newURL str = true <->
  exists u, newURL str = Some u
    /\ In (hostname u) ["mega.nz"; "www.mega.nz"; "mega.co.nz"; "www.mega.co.nz"]
    /\ ((exists rest, pathname u = "/file/" ++ rest)
        \/ ~ (exists rest, pathname u = "/f/" ++ rest)).
Proof.
  assert (forall p,
             startsWith p "/file/" || startsWith p "/#!"
             || Bool.eqb (startsWith p "/f/") false = true
             <-> (exists rest, p = "/file/" ++ rest)
                 \/ ~ (exists rest, p = "/f/" ++ rest)) as Hshape.
  { intros p. rewrite <- !startsWith_spec.
    destruct (startsWith p "/file/"); [cbn; tauto |].
    destruct (startsWith p "/f/") eqn:E.
    - destruct (startsWith_f_shapes _ E) as [-> _]. cbn. intuition congruence.
    - rewrite orb_true_r. intuition congruence. }
  unfold isAllowedMegaLink_legacy. destruct (newURL str) as [u|].
  - rewrite andb_true_iff, arrayIncludes_In, Hshape. split.
    + intros [Hh Hs]. exists u. tauto.
    + intros (u' & [= <-] & Hh & Hs). tauto.
  - split; [discriminate | intros (u & [=] & _)].
Qed.

Lemma isAllowedMegaLink_legacy_correct_witness :
  isAllowedMegaLink_legacy sampleURL "https://mega.nz/folder/XXXX" = true.
Proof.
  apply (proj2 (isAllowedMegaLink_legacy_correct sampleURL "https://mega.nz/folder/XXXX")).
  exists {| hostname := "mega.nz"; pathname := "/folder/XXXX"; hash := "" |}.
  split; [reflexivity |]. split; [simpl; tauto |].
  right. intros [rest H]. discriminate H.
Defined.

Section LegacyFacts.

Variable newURL : string -> option URL.
Variable stringToNumber : string -> number.
Variable loadAttributes : string -> Result FileAttributes.

Lemma dl_legacy_resolved (req : Request) (link : string) (file : FileAttributes) :
  query req !! "link" = Some link ->
  link <> "" ->
  isAllowedMegaLink_legacy newURL link = true ->
  loadAttributes link = Ok file ->
  dl_legacy newURL stringToNumber loadAttributes req
  = respond_legacy stringToNumber req file legacyRes0.
Proof.
  intros Hq Hne Hv Hl. unfold dl_legacy. rewrite Hq.
  destruct link as [|c link]; [congruence |].
  cbn [truthy negb]. rewrite Hv, Hl. reflexivity.
Qed.

(** X17. On a link that the current validator accepts and a file whose size
    is a number other than 0, the earlier handler and the current one give
    the same response: same status, same headers, same stream. *)
Theorem dl_legacy_agrees (req : Request) (link : string) (file : FileAttributes)
        (fileSize : Z) :
  newURL "" = None ->
  query req !! "link" = Some link ->
  isAllowedMegaLink newURL link = true ->
  loadAttributes link = Ok file ->
  Number stringToNumber (size file) = Int fileSize ->
  fileSize <> 0 ->
  dl_legacy newURL stringToNumber loadAttributes req
  = toLegacy (dl newURL stringToNumber loadAttributes req).
Proof using Type.
  intros Hempty Hq Hv Hl Hn Hne.
  rewrite (dl_resolved newURL stringToNumber loadAttributes Hempty req link file Hq Hv Hl).
  rewrite (dl_legacy_resolved req link file Hq); try assumption.
  - unfold respond_legacy, respond. rewrite Hn, parseRangeNum_Int.
    destruct (Z.eqb_spec fileSize 0); [contradiction |].
    destruct (parseRange (headers req !! "range") fileSize) as [r|]; reflexivity.
  - intros ->. unfold isAllowedMegaLink in Hv. rewrite Hempty in Hv. discriminate.
  - now apply isAllowedMegaLink_legacy_of_current.
Qed.

(** X18. The earlier handler knows four statuses, 200, 206, 400 and 500,
    and answers 500 exactly when the provider throws on a link that passed
    its validator, always with the same text, whatever the error. *)
Theorem dl_legacy_statuses (req : Request) :
  In (legacyStatusCode (dl_legacy newURL stringToNumber loadAttributes req))
     [200; 206; 400; 500]
  /\ (legacyStatusCode (dl_legacy newURL stringToNumber loadAttributes req) = 500 <->
      exists link err,
        query req !! "link" = Some link /\ link <> ""
        /\ isAllowedMegaLink_legacy newURL link = true
        /\ loadAttributes link = Throw err)
  /\ (legacyStatusCode (dl_legacy newURL stringToNumber loadAttributes req) = 500 ->
      legacyBody (dl_legacy newURL stringToNumber loadAttributes req)
      = Some (LegacySent "Failed to fetch from MEGA. Check the link and try again.")).
Proof using Type.
  unfold dl_legacy. destruct (query req !! "link") as [link|].
  - destruct link as [|c link]; cbn [truthy negb].
    + split; [simpl; tauto |]. split; [split; [discriminate |] | discriminate].
      intros (l & err & [= <-] & Hne & _). congruence.
    + destruct (isAllowedMegaLink_legacy newURL (String c link)) eqn:Hv; cbn [negb].
      * destruct (loadAttributes (String c link)) as [file | err] eqn:Hl.
        -- unfold respond_legacy.
           destruct (parseRangeNum (headers req !! "range")
                       (Number stringToNumber (size file))) as [r|];
             [| destruct (JsNumber.isFinite (Number stringToNumber (size file)))];
             (split; [simpl; tauto |]);
             (split; [split; [discriminate |] | discriminate]);
             intros (l & err & [= <-] & _ & _ & H); congruence.
        -- split; [simpl; tauto |]. split; [split |]; try reflexivity.
           intros _. exists (String c link), err. repeat split; congruence.
      * split; [simpl; tauto |]. split; [split; [discriminate |] | discriminate].
        intros (l & err & [= <-] & _ & H & _). congruence.
  - split; [simpl; tauto |]. split; [split; [discriminate |] | discriminate].
    intros (l & err & [=] & _).
Qed.

(** X19. The earlier handler serves a file of size 0 (or of a negative
    size) as a success: status 200 with that size as [Content-Length] and
    the whole-file stream, whatever the [Range] header. *)
Theorem dl_legacy_empty_file (req : Request) (link : string) (file : FileAttributes)
        (fileSize : Z) :
  query req !! "link" = Some link ->
  link <> "" ->
  isAllowedMegaLink_legacy newURL link = true ->
  loadAttributes link = Ok file ->
  Number stringToNumber (size file) = Int fileSize ->
  fileSize <= 0 ->
  legacyStatusCode (dl_legacy newURL stringToNumber loadAttributes req) = 200
  /\ legacyHeaders (dl_legacy newURL stringToNumber loadAttributes req) !! "Content-Length"
     = Some (toString fileSize)
  /\ legacyBody (dl_legacy newURL stringToNumber loadAttributes req)
     = Some (LegacyPiped None).
Proof using Type.
  intros Hq Hne Hv Hl Hn Hsize. rewrite (dl_legacy_resolved req link file Hq Hne Hv Hl).
  unfold respond_legacy. rewrite Hn, parseRangeNum_Int.
  assert (parseRange (headers req !! "range") fileSize = None) as ->.
  { destruct (parseRange (headers req !! "range") fileSize) as [r|] eqn:E; [| reflexivity].
    apply parseRange_bounds in E. lia. }
  cbn [option_map JsNumber.isFinite JsNumber.isNaN negb JsNumber.toString
       legacyStatusCode legacyHeaders legacyBody legacyStatus legacySetHeader legacyPipe].
  repeat split; by simplify_map_eq.
Qed.

(** X20. When the size is not a number and the request has no [Range]
    header, or one that does not begin with [bytes=], the earlier handler
    streams the whole file with status 200 and no [Content-Length]. *)
Theorem dl_legacy_unknown_size (req : Request) (link : string) (file : FileAttributes) :
  query req !! "link" = Some link ->
  link <> "" ->
  isAllowedMegaLink_legacy newURL link = true ->
  loadAttributes link = Ok file ->
  Number stringToNumber (size file) = NaN ->
  headers req !! "range" = None
  \/ (exists h, headers req !! "range" = Some h /\ startsWith h "bytes=" = false) ->
  legacyStatusCode (dl_legacy newURL stringToNumber loadAttributes req) = 200
  /\ legacyHeaders (dl_legacy newURL stringToNumber loadAttributes req) !! "Content-Length"
     = None
  /\ legacyHeaders (dl_legacy newURL stringToNumber loadAttributes req) !! "Content-Type"
     = Some "application/octet-stream"
  /\ legacyBody (dl_legacy newURL stringToNumber loadAttributes req)
     = Some (LegacyPiped None).
Proof using Type.
  intros Hq Hne Hv Hl Hn Hh. rewrite (dl_legacy_resolved req link file Hq Hne Hv Hl).
  unfold respond_legacy. rewrite Hn.
  assert (parseRangeNum (headers req !! "range") NaN = None) as ->.
  { destruct Hh as [-> | (h & -> & Hp)]; [reflexivity |].
    unfold parseRangeNum. now rewrite Hp, orb_true_r. }
  cbn [JsNumber.isFinite JsNumber.isNaN negb
       legacyStatusCode legacyHeaders legacyBody legacyStatus legacySetHeader legacyPipe].
  repeat split; by simplify_map_eq.
Qed.

(** X21. When the size is not a number, the earlier handler takes any
    window on trust: for [0 <= a <= b] (with [b] an integer that a number
    holds exactly) the header [bytes=a-b] is answered with status 206,
    [Content-Range: bytes a-b/NaN] and the stream opened on [a] to [b]. *)
Theorem dl_legacy_unknown_size_window (req : Request) (link : string)
        (file : FileAttributes) (a b : Z) :
  query req !! "link" = Some link ->
  link <> "" ->
  isAllowedMegaLink_legacy newURL link = true ->
  loadAttributes link = Ok file ->
  Number stringToNumber (size file) = NaN ->
  0 <= a -> a <= b -> b <= 9007199254740991 ->
  headers req !! "range" = Some ("bytes=" ++ toString a ++ "-" ++ toString b) ->
  legacyStatusCode (dl_legacy newURL stringToNumber loadAttributes req) = 206
  /\ legacyHeaders (dl_legacy newURL stringToNumber loadAttributes req) !! "Content-Range"
     = Some ("bytes " ++ toString a ++ "-" ++ toString b ++ "/NaN")
  /\ legacyHeaders (dl_legacy newURL stringToNumber loadAttributes req) !! "Content-Length"
     = Some (toString (b - a + 1))
  /\ legacyBody (dl_legacy newURL stringToNumber loadAttributes req)
     = Some (LegacyPiped (Some {| nstart := Int a; nend := Int b |})).
Proof using Type.
  intros Hq Hne Hv Hl Hn Ha Hab _ Hh.
  rewrite (dl_legacy_resolved req link file Hq Hne Hv Hl).
  unfold respond_legacy. rewrite Hn, Hh.
  assert (parseRangeNum (Some ("bytes=" ++ toString a ++ "-" ++ toString b)) NaN
          = Some {| nstart := Int a; nend := Int b |}) as ->.
  { unfold parseRangeNum.
    change (truthy ("bytes=" ++ toString a ++ "-" ++ toString b)) with true.
    change (startsWith ("bytes=" ++ toString a ++ "-" ++ toString b) "bytes=") with true.
    cbn [negb orb]. rewrite replace_bytes.
    change (toString a ++ "-" ++ toString b) with (toString a ++ String "-" (toString b)).
    rewrite split_dash by (apply allDigits_noDash, toString_allDigits; lia).
    rewrite split_noDash by (apply allDigits_noDash, toString_allDigits; lia).
    cbn [lookup list_lookup].
    rewrite !toString_truthy, !parseInt_toString by lia.
    cbn [JsNumber.isNaN JsNumber.ge JsNumber.gt JsNumber.lt orb].
    destruct (Z.gtb_spec a b), (Z.ltb_spec a 0); lia || reflexivity. }
  cbn [JsNumber.add JsNumber.sub JsNumber.toString nstart nend
       legacyStatusCode legacyHeaders legacyBody legacyStatus legacySetHeader legacyPipe].
  repeat split; by simplify_map_eq.
Qed.

End LegacyFacts.

(** ** The current validator and the platform's parser *)

(** X22. A parsed URL has no [#] in its path, the fragment being split off
    by the platform; for such a parser the third shape of the current
    validator never applies, and a link is accepted exactly when its host is
    allowed and either its path begins with [/file/] or its path is the
    root and its fragment begins with [#!]. *)
Theorem isAllowedMegaLink_two_shapes (newURL : string -> option URL) (str : string) :
  (forall str' u, newURL str' = Some u -> includes (pathname u) "#" = false) ->
  isAllowedMegaLink newURL str = true <->
  exists u, newURL str = Some u
    /\ In (hostname u) ["mega.nz"; "www.mega.nz"; "mega.co.nz"; "www.mega.co.nz"]
    /\ ((exists rest, pathname u = "/file/" ++ rest)
        \/ (pathname u = "/" /\ exists rest, hash u = "#!" ++ rest)).
Proof.
  intros Hpath. unfold isAllowedMegaLink. destruct (newURL str) as [u|] eqn:Hu.
  - assert (startsWith (pathname u) "/#!" = false) as ->.
    { destruct (startsWith (pathname u) "/#!") eqn:E; [| reflexivity].
      apply startsWith_spec in E as [rest E]. specialize (Hpath str u Hu).
      rewrite E in Hpath. discriminate Hpath. }
    rewrite orb_false_r, andb_true_iff, orb_true_iff, andb_true_iff, String.eqb_eq.
    rewrite arrayIncludes_In, !startsWith_spec. split.
    + intros [Hh Hs]. exists u. tauto.
    + intros (u' & [= <-] & Hh & Hs). tauto.
  - split; [discriminate | intros (u & [=] & _)].
Qed.

Lemma isAllowedMegaLink_two_shapes_witness :
  isAllowedMegaLink sampleURL "https://mega.nz/#!XXXX!KEY" = true.
Proof.
  apply (isAllowedMegaLink_two_shapes sampleURL "https://mega.nz/#!XXXX!KEY").
  - intros str' u. unfold sampleURL.
    repeat match goal with
           | |- context [String.eqb str' ?l] => destruct (String.eqb str' l)
           end; intros [= <-]; reflexivity.
  - exists {| hostname := "mega.nz"; pathname := "/"; hash := "#!XXXX!KEY" |}.
    split; [reflexivity |]. split; [simpl; tauto |].
    right. split; [reflexivity | now exists "XXXX!KEY"].
Defined.

(** *** The handlers on sample requests *)

Lemma dl_provider_scope_witness :
  dl sampleURL sampleStringToNumber (sampleProvider (SizeNumber (Int 1000)))
     (sampleRequest (Some "bytes=0-99"))
  = dl sampleURL sampleStringToNumber (strictProvider (SizeNumber (Int 1000)))
       (sampleRequest (Some "bytes=0-99")).
Proof.
  apply dl_provider_scope. intros link _ Hv. unfold strictProvider.
  rewrite Hv. reflexivity.
Defined.

Lemma dl_rejection_texts_witness :
  body (dl sampleURL sampleStringToNumber (sampleProvider SizeUndefined)
           {| query := ∅; headers := ∅ |})
  = Some (Sent "Missing ?link=<MEGA_PUBLIC_FILE_URL>")
  /\ body (dl sampleURL sampleStringToNumber (sampleProvider SizeUndefined)
              {| query := {[ "link" := "https://mega.nz/folder/XXXX" ]}; headers := ∅ |})
     = Some (Sent "Only public MEGA FILE links are supported.").
Proof.
  split.
  - apply (proj1 (dl_rejection_texts sampleURL sampleStringToNumber
                    (sampleProvider SizeUndefined) {| query := ∅; headers := ∅ |})).
    left. reflexivity.
  - apply (proj2 (dl_rejection_texts sampleURL sampleStringToNumber
                    (sampleProvider SizeUndefined)
                    {| query := {[ "link" := "https://mega.nz/folder/XXXX" ]};
                       headers := ∅ |})).
    exists "https://mega.nz/folder/XXXX".
    split; [reflexivity |]. split; [discriminate | reflexivity].
Defined.

Lemma dl_stream_headers_witness :
  resHeaders (dl sampleURL sampleStringToNumber (sampleProvider (SizeNumber (Int 1000)))
                 (sampleRequest (Some "bytes=0-99"))) !! "Accept-Ranges" = Some "bytes"
  /\ resHeaders (dl sampleURL sampleStringToNumber (sampleProvider (SizeNumber (Int 1000)))
                    (sampleRequest None)) !! "Cache-Control" = Some "no-store".
Proof.
  split.
  - destruct (dl_stream_headers sampleURL sampleStringToNumber
                (sampleProvider (SizeNumber (Int 1000)))
                (sampleRequest (Some "bytes=0-99"))
                (Some {| start := 0; end_ := 99 |}) eq_refl) as (H & _).
    exact H.
  - destruct (dl_stream_headers sampleURL sampleStringToNumber
                (sampleProvider (SizeNumber (Int 1000)))
                (sampleRequest None) None eq_refl) as (_ & H & _).
    exact H.
Defined.

Lemma dl_content_disposition_witness :
  resHeaders (dl sampleURL sampleStringToNumber (sampleProvider (SizeNumber (Int 1000)))
                 (sampleRequest None)) !! "Content-Disposition"
  = Some "attachment; filename*=UTF-8''a.bin".
Proof.
  destruct (dl_content_disposition sampleURL sampleStringToNumber
              (sampleProvider (SizeNumber (Int 1000))) (sampleRequest None) None eq_refl)
    as (link & file & enc & _ & Hl & -> & H & _).
  injection Hl as <-. exact H.
Defined.

Lemma dl_resume_witness :
  dl sampleURL sampleStringToNumber (sampleProvider (SizeNumber (Int 1000)))
     (withRange ("bytes=" ++ toString 0 ++ "-" ++ toString 99)
        (sampleRequest (Some "bytes=0-99,200-300")))
  = dl sampleURL sampleStringToNumber (sampleProvider (SizeNumber (Int 1000)))
       (sampleRequest (Some "bytes=0-99,200-300")).
Proof.
  apply (dl_resume sampleURL sampleStringToNumber (sampleProvider (SizeNumber (Int 1000)))
           (sampleRequest (Some "bytes=0-99,200-300")) {| start := 0; end_ := 99 |}).
  reflexivity.
Defined.

Lemma dl_chunk_length_witness :
  resHeaders (dl sampleURL sampleStringToNumber (sampleProvider (SizeNumber (Int 1000)))
                 (sampleRequest (Some "bytes=900-"))) !! "Content-Length"
  = Some (toString 100).
Proof.
  destruct (dl_chunk_length sampleURL sampleStringToNumber
              (sampleProvider (SizeNumber (Int 1000))) (sampleRequest (Some "bytes=900-"))
              {| start := 900; end_ := 999 |} eq_refl)
    as (link & file & fileSize & chunkSize & _ & _ & _ & -> & H & _).
  exact H.
Defined.

Lemma dl_negative_size_witness :
  isFullResponse
    (dl sampleURL sampleStringToNumber (sampleProvider (SizeNumber (Int (-5))))
        (sampleRequest (Some "bytes=0-99")))
    (-5).
Proof.
  apply (dl_negative_size sampleURL sampleStringToNumber
           (sampleProvider (SizeNumber (Int (-5)))) (sampleRequest (Some "bytes=0-99"))
           sampleLink {| name := Some "a.bin"; size := SizeNumber (Int (-5)) |});
    reflexivity || lia.
Defined.

Lemma dl_legacy_agrees_witness :
  dl_legacy sampleURL sampleStringToNumber (sampleProvider (SizeNumber (Int 1000)))
            (sampleRequest (Some "bytes=0-99"))
  = toLegacy (dl sampleURL sampleStringToNumber (sampleProvider (SizeNumber (Int 1000)))
                 (sampleRequest (Some "bytes=0-99"))).
Proof.
  apply (dl_legacy_agrees sampleURL sampleStringToNumber
           (sampleProvider (SizeNumber (Int 1000))) (sampleRequest (Some "bytes=0-99"))
           sampleLink {| name := Some "a.bin"; size := SizeNumber (Int 1000) |} 1000);
    reflexivity || lia.
Defined.

Lemma dl_legacy_empty_file_witness :
  legacyStatusCode
    (dl_legacy sampleURL sampleStringToNumber (sampleProvider (SizeNumber (Int 0)))
               (sampleRequest (Some "bytes=0-0"))) = 200
  /\ legacyHeaders
       (dl_legacy sampleURL sampleStringToNumber (sampleProvider (SizeNumber (Int 0)))
                  (sampleRequest (Some "bytes=0-0"))) !! "Content-Length"
     = Some (toString 0)
  /\ legacyBody
       (dl_legacy sampleURL sampleStringToNumber (sampleProvider (SizeNumber (Int 0)))
                  (sampleRequest (Some "bytes=0-0")))
     = Some (LegacyPiped None).
Proof.
  apply (dl_legacy_empty_file sampleURL sampleStringToNumber
           (sampleProvider (SizeNumber (Int 0))) (sampleRequest (Some "bytes=0-0"))
           sampleLink {| name := Some "a.bin"; size := SizeNumber (Int 0) |} 0);
    reflexivity || discriminate || lia.
Defined.

Lemma dl_legacy_unknown_size_witness :
  legacyHeaders
    (dl_legacy sampleURL sampleStringToNumber (sampleProvider SizeUndefined)
               (sampleRequest None)) !! "Content-Length" = None.
Proof.
  destruct (dl_legacy_unknown_size sampleURL sampleStringToNumber
              (sampleProvider SizeUndefined) (sampleRequest None)
              sampleLink {| name := Some "a.bin"; size := SizeUndefined |})
    as (_ & H & _);
    [reflexivity | discriminate | reflexivity | reflexivity | reflexivity
     | left; reflexivity | exact H].
Defined.

Lemma dl_legacy_unknown_size_window_witness :
  legacyHeaders
    (dl_legacy sampleURL sampleStringToNumber (sampleProvider SizeUndefined)
               (sampleRequest (Some "bytes=5-9"))) !! "Content-Range"
  = Some ("bytes " ++ toString 5 ++ "-" ++ toString 9 ++ "/NaN").
Proof.
  destruct (dl_legacy_unknown_size_window sampleURL sampleStringToNumber
              (sampleProvider SizeUndefined) (sampleRequest (Some "bytes=5-9"))
              sampleLink {| name := Some "a.bin"; size := SizeUndefined |} 5 9)
    as (_ & H & _);
    [reflexivity | discriminate | reflexivity | reflexivity | reflexivity
     | lia | lia | lia | reflexivity | exact H].
Defined.
